(** * tui-launcher: the launch subsystem

    A shallow embedding of [TUILauncher] (core/launcher) and of the part of
    [DatabaseService] (core/database/client.ts) it writes to, with the
    properties the design document states about them.

    The TypeScript code is effectful: it reads the clock, probes the host
    for terminal emulators, spawns processes, writes to SQLite and to the
    console, and throws.  All of that is threaded through one state and
    exception monad [M] over a [World]; what the host answers is a [Host]
    record the definitions are parameterised by.

    Beside the launcher the file covers what surrounds it: the queries and
    the deletion of [DatabaseService] on the same [Store]; in [Db], the
    registry columns of [tuis] and the settings; in [Registry], the
    [RegistryManager] built on them; in [AppStore], the cached list of the
    global state; and in [App], the keyboard navigation between tabs. *)

From stdpp Require Import base option list strings gmap sorting.
From Stdlib Require Import ZArith Lia.

Open Scope Z_scope.

(** ** JavaScript values the code relies on *)

(** What a [throw] carries: an [Error] object with its message, or any other
    value ([error instanceof Error] tells them apart in [launch]'s handler). *)
Inductive JsError : Type :=
| ErrorObject (message : string)
| ThrownValue (description : string).

(** [x || null] and [x || undefined] on a number: 0 is falsy. *)
Definition number_or_absent (v : option Z) : option Z :=
  match v with
  | Some n => if n =? 0 then None else Some n
  | None => None
  end.

(** [s || null] on a string: the empty string is falsy. *)
Definition string_or_absent (v : option string) : option string :=
  match v with
  | Some s => if String.eqb s "" then None else Some s
  | None => None
  end.

(** [Array.prototype.join]. *)
Definition join (sep : string) (xs : list string) : string :=
  String.concat sep xs.

(** ** Types (types/tui.ts and the launcher's interfaces) *)

(** The columns of a [tuis] row the launch subsystem reads or writes. *)
Record TUI : Type := mkTUI {
  id : option Z;
  name : string;
  command : string;
  last_launched_at : option Z;
  launch_count : Z;
}.

(** A row of [launch_history]. *)
Record LaunchHistory : Type := mkLaunchHistory {
  lh_id : Z;
  lh_tui_id : Z;
  lh_launched_at : Z;
  lh_exit_code : option Z;
  lh_duration_ms : option Z;
  lh_error_message : option string;
}.

(** The argument of [addLaunchHistory]: [Omit<LaunchHistory, 'id' |
    'launched_at'>].  [tui_id] is typed [number], but [recordLaunch]
    passes [tui.id!], which is [undefined] for a record without an id. *)
Record HistoryEntry : Type := mkHistoryEntry {
  tui_id : option Z;
  exit_code : option Z;
  duration_ms : option Z;
  error_message : option string;
}.

Record LaunchOptions : Type := mkLaunchOptions {
  args : option (list string);
  cwd : option string;
  terminal : option string;
  waitForExit : option bool;
}.

Record LaunchResult : Type := mkLaunchResult {
  success : bool;
  exitCode : option Z;
  duration : option Z;
  error : option string;
}.

(** ** The host *)

Inductive Stdio : Type := StdioInherit | StdioIgnore.

(** One call of [child_process.spawn]. *)
Record SpawnCall : Type := mkSpawnCall {
  sp_file : string;
  sp_args : list string;
  sp_cwd : string;
  sp_detached : bool;
  sp_stdio : Stdio;
}.

(** What a spawned child emits on its handle: ['exit'] with the exit code
    ([null] when a signal ended it) or ['error'].  A child is given by the
    events it has emitted so far, in order; a child that is still running
    has emitted none. *)
Inductive ChildEvent : Type :=
| Exit (code : option Z)
| Error (message : string).

Inductive SpawnAnswer : Type :=
| SpawnThrows (e : JsError)
| Spawned (events : list ChildEvent).

(** [Bun.spawn(['which', t])] followed by [await proc.exited]. *)
Inductive ProbeAnswer : Type :=
| ProbeExited (code : Z)
| ProbeThrows (e : JsError).

Record Host : Type := mkHost {
  (** the k-th reading of [Date.now()] *)
  now : nat -> Z;
  (** SQLite's CURRENT_TIMESTAMP once k readings of the clock were taken *)
  current_timestamp : nat -> Z;
  which : string -> ProbeAnswer;
  os_spawn : SpawnCall -> SpawnAnswer;
  process_cwd : string;
}.

(** ** The store (database/schema.sql, as far as launches touch it) *)

Record Store : Type := mkStore {
  closed : bool;
  tuis : gmap Z TUI;
  launch_history : list LaunchHistory;
  (** AUTOINCREMENT counter of [launch_history] *)
  history_seq : Z;
}.

(** ** The world and the monad *)

Record World : Type := mkWorld {
  clock : nat;
  store : Store;
  probes : list string;
  spawns : list SpawnCall;
  console : list string;
}.

Inductive Outcome (A : Type) : Type :=
| Val (a : A)
| Raise (e : JsError).
Arguments Val {A} a.
Arguments Raise {A} e.

Definition M (A : Type) : Type := World -> Outcome A * World.

Definition ret {A} (a : A) : M A := fun w => (Val a, w).

Definition throw {A} (e : JsError) : M A := fun w => (Raise e, w).

Definition bind {A B} (m : M A) (k : A -> M B) : M B :=
  fun w =>
    match m w with
    | (Val a, w') => k a w'
    | (Raise e, w') => (Raise e, w')
    end.

(** [try { body } catch (e) { handler }] *)
Definition try_catch {A} (body : M A) (handler : JsError -> M A) : M A :=
  fun w =>
    match body w with
    | (Val a, w') => (Val a, w')
    | (Raise e, w') => handler e w'
    end.

(** [M] is a monad in stdpp's sense, which gives the [x ← m; k] and
    [m;; k] notations. *)
#[export] Instance M_ret : MRet M := @ret.
#[export] Instance M_bind : MBind M := fun A B k m => bind m k.

Definition set_clock (n : nat) (w : World) : World :=
  mkWorld n (store w) (probes w) (spawns w) (console w).
Definition set_store (s : Store) (w : World) : World :=
  mkWorld (clock w) s (probes w) (spawns w) (console w).
Definition log_probe (t : string) (w : World) : World :=
  mkWorld (clock w) (store w) (probes w ++ [t]) (spawns w) (console w).
Definition log_spawn (c : SpawnCall) (w : World) : World :=
  mkWorld (clock w) (store w) (probes w) (spawns w ++ [c]) (console w).
Definition log_console (line : string) (w : World) : World :=
  mkWorld (clock w) (store w) (probes w) (spawns w) (console w ++ [line]).

(** ** DatabaseService.addLaunchHistory *)

(** The first statement, [INSERT INTO launch_history ... VALUES (?, ?, ?, ?)],
    under [PRAGMA foreign_keys = ON]: [tui_id] is NOT NULL and references
    [tuis(id)]; [launched_at] defaults to CURRENT_TIMESTAMP. *)
Definition insert_history (ts : Z) (tid : option Z) (ec dur : option Z)
    (msg : option string) (s : Store) : Outcome Z * Store :=
  match tid with
  | None => (Raise (ErrorObject "NOT NULL constraint failed: launch_history.tui_id"), s)
  | Some t =>
      match tuis s !! t with
      | None => (Raise (ErrorObject "FOREIGN KEY constraint failed"), s)
      | Some _ =>
          let rowid := history_seq s + 1 in
          (Val rowid,
           mkStore (closed s) (tuis s)
             (launch_history s ++ [mkLaunchHistory rowid t ts ec dur msg])
             rowid)
      end
  end.

(** The second statement, [UPDATE tuis SET launch_count = launch_count + 1,
    last_launched_at = CURRENT_TIMESTAMP WHERE id = ?]. *)
Definition touch (ts : Z) (t : TUI) : TUI :=
  mkTUI (id t) (name t) (command t) (Some ts) (launch_count t + 1).

Definition update_launched (ts : Z) (tid : Z) (s : Store) : Store :=
  mkStore (closed s) (alter (touch ts) tid (tuis s)) (launch_history s)
    (history_seq s).

Definition addLaunchHistory (ts : Z) (history : HistoryEntry) (s : Store)
    : Outcome Z * Store :=
  if closed s then (Raise (ErrorObject "Cannot use a closed database"), s)
  else
    match insert_history ts (tui_id history)
            (number_or_absent (exit_code history))
            (number_or_absent (duration_ms history))
            (string_or_absent (error_message history)) s with
    | (Raise e, s') => (Raise e, s')
    | (Val rowid, s') =>
        match tui_id history with
        | Some t => (Val rowid, update_launched ts t s')
        | None => (Val rowid, s')
        end
    end.

(** ** TUILauncher *)

Section Launcher.

Context (host : Host).

(** [Date.now()]: the next reading of the host's clock. *)
Definition date_now : M Z :=
  fun w => (Val (now host (clock w)), set_clock (S (clock w)) w).

(** [this.db.addLaunchHistory(...)] run against the world's store. *)
Definition db_addLaunchHistory (history : HistoryEntry) : M Z :=
  fun w =>
    let (r, s') := addLaunchHistory (current_timestamp host (clock w))
                     history (store w) in
    (r, set_store s' w).

Definition console_error (line : string) : M unit :=
  fun w => (Val tt, log_console line w).

(** [Bun.spawn(['which', t], ...)] and [await proc.exited]. *)
Definition probe (t : string) : M Z :=
  fun w =>
    match which host t with
    | ProbeExited code => (Val code, log_probe t w)
    | ProbeThrows e => (Raise e, log_probe t w)
    end.

(** [spawn(file, args, {cwd, detached, stdio})]. *)
Definition spawn (c : SpawnCall) : M (list ChildEvent) :=
  fun w =>
    match os_spawn host c with
    | SpawnThrows e => (Raise e, log_spawn c w)
    | Spawned events => (Val events, log_spawn c w)
    end.

(** The candidate list of [detectTerminal]. *)
Definition terminals : list string :=
  ["alacritty"; "kitty"; "wezterm"; "gnome-terminal"; "konsole"; "xterm";
   "urxvt"; "terminator"; "tilix"].

(** The [for (const terminal of terminals)] loop of [detectTerminal]; the
    [try] block either returns the terminal or falls through. *)
Fixpoint detect_from (candidates : list string) : M (option string) :=
  match candidates with
  | [] => ret None
  | t :: rest =>
      found ← try_catch
                 (exitCode ← probe t;
                  if exitCode =? 0 then ret (Some t) else ret None)
                 (fun _ => ret None);
      match found with
      | Some t' => ret (Some t')
      | None => detect_from rest
      end
  end.

Definition detectTerminal : M (option string) := detect_from terminals.

(** [args.length > 0 ? `${command} ${args.join(' ')}` : command] *)
Definition fullCommand (command : string) (args : list string) : string :=
  if (0 <? Z.of_nat (length args))
  then command +:+ " " +:+ join " " args
  else command.

(** The [switch (terminal)] of [buildLaunchCommand], case by case. *)
Definition buildLaunchCommand (terminal command : string) (args : list string)
    : list string :=
  let fullCommand := fullCommand command args in
  if String.eqb terminal "alacritty" then
    ["alacritty"; "-e"; "sh"; "-c"; fullCommand]
  else if String.eqb terminal "kitty" then
    ["kitty"; "sh"; "-c"; fullCommand]
  else if String.eqb terminal "wezterm" then
    ["wezterm"; "start"; "--"; "sh"; "-c"; fullCommand]
  else if String.eqb terminal "gnome-terminal" then
    ["gnome-terminal"; "--"; "sh"; "-c"; fullCommand]
  else if String.eqb terminal "konsole" then
    ["konsole"; "-e"; "sh"; "-c"; fullCommand]
  else if String.eqb terminal "xterm" then
    ["xterm"; "-e"; "sh"; "-c"; fullCommand]
  else if String.eqb terminal "urxvt" then
    ["urxvt"; "-e"; "sh"; "-c"; fullCommand]
  else if String.eqb terminal "terminator" then
    ["terminator"; "-x"; "sh"; "-c"; fullCommand]
  else if String.eqb terminal "tilix" then
    ["tilix"; "-e"; "sh"; "-c"; fullCommand]
  else
    ["xterm"; "-e"; "sh"; "-c"; fullCommand].

(** [console.error('Failed to record launch:', error)]. *)
Definition describe (e : JsError) : string :=
  match e with
  | ErrorObject message => message
  | ThrownValue description => description
  end.

Definition recordLaunch (tuiId : option Z) (result : LaunchResult) : M unit :=
  try_catch
    (_ ← db_addLaunchHistory
           (mkHistoryEntry tuiId (exitCode result) (duration result)
              (error result));
     ret tt)
    (fun e => console_error ("Failed to record launch: " +:+ describe e)).

Definition no_terminal_message : string :=
  "No terminal emulator found. Please install alacritty, kitty, or gnome-terminal.".

(** What the body of [launch] hands back: a result, or the promise built by
    [new Promise((resolve) => { proc.on('exit', ...); proc.on('error', ...) })],
    that is the child's events and what the listeners do with each. *)
Inductive Step : Type :=
| Return (r : LaunchResult)
| Await (events : list ChildEvent) (listener : ChildEvent -> M LaunchResult).

(** The ['exit'] listener. *)
Definition on_exit (tui : TUI) (startTime : Z) (code : option Z)
    : M LaunchResult :=
  t ← date_now;
  let duration := t - startTime in
  let result :=
    mkLaunchResult (bool_decide (code = Some 0)) (number_or_absent code)
      (Some duration) None in
  recordLaunch (id tui) result;;
  ret result.

(** The ['error'] listener. *)
Definition on_error (tui : TUI) (startTime : Z) (message : string)
    : M LaunchResult :=
  t ← date_now;
  let duration := t - startTime in
  let result := mkLaunchResult false None (Some duration) (Some message) in
  recordLaunch (id tui) result;;
  ret result.

Definition listener (tui : TUI) (startTime : Z) (ev : ChildEvent)
    : M LaunchResult :=
  match ev with
  | Exit code => on_exit tui startTime code
  | Error message => on_error tui startTime message
  end.

(** The [try] block of [launch]. *)
Definition launch_try (tui : TUI) (options : LaunchOptions) (startTime : Z)
    : M Step :=
  terminal ← match string_or_absent (terminal options) with
             | Some t => ret (Some t)
             | None => detectTerminal
             end;
  match string_or_absent terminal with
  | None => ret (Return (mkLaunchResult false None None (Some no_terminal_message)))
  | Some terminal =>
      let launchCommand :=
        buildLaunchCommand terminal (command tui) (default [] (args options)) in
      let wait := default false (waitForExit options) in
      match launchCommand with
      | [] => throw (ErrorObject "The file argument must be of type string")
      | file :: rest =>
          proc ← spawn (mkSpawnCall file rest
                          (default (process_cwd host)
                             (string_or_absent (cwd options)))
                          (negb wait)
                          (if wait then StdioInherit else StdioIgnore));
          if negb wait then
            t1 ← date_now;
            recordLaunch (id tui)
              (mkLaunchResult true None (Some (t1 - startTime)) None);;
            t2 ← date_now;
            ret (Return (mkLaunchResult true None (Some (t2 - startTime)) None))
          else
            ret (Await proc (listener tui startTime))
      end
  end.

(** [error instanceof Error ? error.message : 'Unknown error'] *)
Definition error_text (e : JsError) : string :=
  match e with
  | ErrorObject message => message
  | ThrownValue _ => "Unknown error"
  end.

(** The [catch] block of [launch]. *)
Definition launch_catch (startTime : Z) (e : JsError) : M Step :=
  t ← date_now;
  let duration := t - startTime in
  ret (Return (mkLaunchResult false None (Some duration) (Some (error_text e)))).

(** The body of [launch]: the start time is read, then [try]/[catch]. *)
Definition launch_body (tui : TUI) (options : LaunchOptions) : M Step :=
  startTime ← date_now;
  try_catch (launch_try tui options startTime) (launch_catch startTime).

(** The listeners stay registered ([proc.on], not [proc.once]): each event
    runs its listener, and [resolve] settles the promise the first time it
    is called. *)
Fixpoint deliver (listener : ChildEvent -> M LaunchResult)
    (events : list ChildEvent) (settled : option LaunchResult)
    : M (option LaunchResult) :=
  match events with
  | [] => ret settled
  | ev :: rest =>
      result ← listener ev;
      deliver listener rest
        (match settled with Some r => Some r | None => Some result end)
  end.

(** The state of the promise an [async] function returned: resolved,
    rejected, or pending as long as nothing has settled it. *)
Inductive Settlement : Type :=
| Resolved (r : LaunchResult)
| Rejected (e : JsError)
| Pending.

(** An exception of the body rejects the promise; a returned promise is
    followed.  An exception of a listener would escape to the event loop
    ([Raise]). *)
Definition settle (body : M Step) : M Settlement :=
  fun w =>
    match body w with
    | (Raise e, w') => (Val (Rejected e), w')
    | (Val (Return r), w') => (Val (Resolved r), w')
    | (Val (Await events listener), w') =>
        (settled ← deliver listener events None;
         ret (match settled with
              | Some r => Resolved r
              | None => Pending
              end)) w'
    end.

(** [async launch(tui, options)]. *)
Definition launch (tui : TUI) (options : LaunchOptions) : M Settlement :=
  settle (launch_body tui options).

End Launcher.

(** ** Vocabulary of the statements *)

(** A candidate resolves on the search path when its [which] probe exits
    with code 0; a probe that throws counts as not found. *)
Definition resolves (host : Host) (t : string) : bool :=
  match which host t with
  | ProbeExited code => code =? 0
  | ProbeThrows _ => false
  end.

(** The candidates [detect_from] probes: all up to and including the first
    that resolves. *)
Fixpoint probed (host : Host) (candidates : list string) : list string :=
  match candidates with
  | [] => []
  | t :: rest => if resolves host t then [t] else t :: probed host rest
  end.

Definition with_probes (ts : list string) (w : World) : World :=
  mkWorld (clock w) (store w) (probes w ++ ts) (spawns w) (console w).

(** The terminal [launch] settles on: [options.terminal] when it is a
    non-empty string, else the first candidate that resolves. *)
Definition chosen_terminal (host : Host) (options : LaunchOptions)
    : option string :=
  match string_or_absent (terminal options) with
  | Some t => Some t
  | None => find (resolves host) terminals
  end.

(** The world once the terminal is settled: the detector ran unless
    [options.terminal] was given. *)
Definition after_detect (host : Host) (options : LaunchOptions) (w : World)
    : World :=
  match string_or_absent (terminal options) with
  | Some _ => w
  | None => with_probes (probed host terminals) w
  end.

(** The call [launch] passes to [child_process.spawn] for a terminal. *)
Definition spawn_call (host : Host) (tui : TUI) (options : LaunchOptions)
    (term : string) : SpawnCall :=
  let launchCommand :=
    buildLaunchCommand term (command tui) (default [] (args options)) in
  let wait := default false (waitForExit options) in
  mkSpawnCall (hd "" launchCommand) (tl launchCommand)
    (default (process_cwd host) (string_or_absent (cwd options)))
    (negb wait) (if wait then StdioInherit else StdioIgnore).

(** The result a listener builds for an event, given the start time and
    the clock reading [t] it takes. *)
Definition event_result (startTime t : Z) (ev : ChildEvent) : LaunchResult :=
  match ev with
  | Exit code =>
      mkLaunchResult (bool_decide (code = Some 0)) (number_or_absent code)
        (Some (t - startTime)) None
  | Error message =>
      mkLaunchResult false None (Some (t - startTime)) (Some message)
  end.

(** The world after [recordLaunch]. *)
Definition recorded (host : Host) (tuiId : option Z) (result : LaunchResult)
    (w : World) : World :=
  (recordLaunch host tuiId result w).2.

(** How a call of [launch] that starts at clock reading [k] settles, read
    off the host alone: the store takes no part in it. *)
Definition outcome (host : Host) (tui : TUI) (options : LaunchOptions)
    (k : nat) : Settlement :=
  let startTime := now host k in
  match chosen_terminal host options with
  | None => Resolved (mkLaunchResult false None None (Some no_terminal_message))
  | Some term =>
      match os_spawn host (spawn_call host tui options term) with
      | SpawnThrows e =>
          Resolved (mkLaunchResult false None
                      (Some (now host (S k) - startTime))
                      (Some (error_text e)))
      | Spawned events =>
          if default false (waitForExit options) then
            match events with
            | [] => Pending
            | ev :: _ => Resolved (event_result startTime (now host (S k)) ev)
            end
          else
            Resolved (mkLaunchResult true None
                        (Some (now host (S (S k)) - startTime)) None)
      end
  end.

(** ** DatabaseService: reading and deleting *)

Definition closed_database : JsError :=
  ErrorObject "Cannot use a closed database".

(** [LIMIT ?]: SQLite reads a negative limit as no limit. *)
Definition sql_limit {A} (limit : Z) (rows : list A) : list A :=
  if limit <? 0 then rows else take (Z.to_nat limit) rows.

(** [ORDER BY launched_at DESC].  SQLite promises no order among rows with
    equal keys; [merge_sort] picks one, and no statement depends on which. *)
Definition newer_entry (a b : LaunchHistory) : Prop :=
  lh_launched_at b ≤ lh_launched_at a.

#[export] Instance newer_entry_dec : RelDecision newer_entry :=
  fun a b => decide (lh_launched_at b ≤ lh_launched_at a).

(** [SELECT * FROM launch_history WHERE tui_id = ? ORDER BY launched_at DESC
    LIMIT ?] *)
Definition getLaunchHistory (tuiId limit : Z) (s : Store)
    : Outcome (list LaunchHistory) :=
  if closed s then Raise closed_database
  else
    Val (sql_limit limit
           (merge_sort newer_entry
              (filter (fun r => lh_tui_id r = tuiId) (launch_history s)))).

(** SQLite's order on a nullable column: NULL sorts below every value. *)
Definition null_le (x y : option Z) : Prop :=
  match x, y with
  | None, _ => True
  | Some _, None => False
  | Some a, Some b => a ≤ b
  end.

#[export] Instance null_le_dec : RelDecision null_le.
Proof.
  intros [a|] [b|]; simpl; [apply _ | right; tauto | left; exact I
                            | left; exact I].
Defined.

(** [ORDER BY last_launched_at DESC] *)
Definition launched_later (a b : TUI) : Prop :=
  null_le (last_launched_at b) (last_launched_at a).

#[export] Instance launched_later_dec : RelDecision launched_later :=
  fun a b => decide (null_le (last_launched_at b) (last_launched_at a)).

(** [SELECT * FROM tuis WHERE last_launched_at IS NOT NULL ORDER BY
    last_launched_at DESC LIMIT ?], each row through [rowToTUI], which
    leaves the columns carried here as they are. *)
Definition getRecentlyLaunchedTUIs (limit : Z) (s : Store)
    : Outcome (list TUI) :=
  if closed s then Raise closed_database
  else
    Val (sql_limit limit
           (merge_sort launched_later
              (filter (fun t => last_launched_at t <> None)
                 (map_to_list (tuis s)).*2))).

(** [DELETE FROM tuis WHERE id = ?] under [PRAGMA foreign_keys = ON]: the
    [launch_history] rows that reference the TUI go with it ([ON DELETE
    CASCADE]); the result is [changes > 0]. *)
Definition deleteTUI (tid : Z) (s : Store) : Outcome bool * Store :=
  if closed s then (Raise closed_database, s)
  else
    match tuis s !! tid with
    | None => (Val false, s)
    | Some _ =>
        (Val true,
         mkStore (closed s) (delete tid (tuis s))
           (filter (fun r => lh_tui_id r <> tid) (launch_history s))
           (history_seq s))
    end.

(** [close()] *)
Definition close (s : Store) : Store :=
  mkStore true (tuis s) (launch_history s) (history_seq s).

(** [TUILauncher.getHistory(tuiId, limit = 10)] *)
Definition getHistory (tuiId : Z) (limit : option Z)
    : M (list LaunchHistory) :=
  fun w => (getLaunchHistory tuiId (default 10 limit) (store w), w).

(** [TUILauncher.getRecentlyLaunched(limit = 10)] *)
Definition getRecentlyLaunched (limit : option Z) : M (list TUI) :=
  fun w => (getRecentlyLaunchedTUIs (default 10 limit) (store w), w).

(** What the schema keeps true of the two tables: every history row
    references a TUI that exists, and row ids are distinct and not above
    the AUTOINCREMENT counter. *)
Definition consistent (s : Store) : Prop :=
  Forall (fun r => is_Some (tuis s !! lh_tui_id r)) (launch_history s)
  /\ Forall (fun r => lh_id r ≤ history_seq s) (launch_history s)
  /\ NoDup (lh_id <$> launch_history s).

(** ** The global state (core/state/store.ts) *)

Module AppStore.

Record Category : Type := mkCategory {
  cat_id : option Z;
  cat_name : string;
  cat_slug : string;
  cat_description : option string;
  cat_icon : option string;
  cat_color : option string;
}.

(** The data of [AppState]; its setters are the functions below.  A tab
    is held as the string it is at run time. *)
Record AppState : Type := mkAppState {
  activeTab : string;
  tuis : list TUI;
  categories : list Category;
  showcaseTUI : option TUI;
  searchQuery : string;
  categoryFilter : option string;
  sourceFilter : option string;
  installedFilter : option bool;
  theme : string;
  isLoading : bool;
  error : option string;
}.

(** The state [create] starts with. *)
Definition initial : AppState :=
  mkAppState "showcase" [] [] None "" None None None "tokyonight" false None.

(** [Partial<TUI>] over the columns carried here: a key is absent or holds
    a value, which for an optional column may be [undefined]. *)
Record PartialTUI : Type := mkPartialTUI {
  p_id : option (option Z);
  p_name : option string;
  p_command : option string;
  p_last_launched_at : option (option Z);
  p_launch_count : option Z;
}.

(** [{ ...tui, ...updates }] *)
Definition spread (tui : TUI) (updates : PartialTUI) : TUI :=
  mkTUI (default (id tui) (p_id updates))
    (default (name tui) (p_name updates))
    (default (command tui) (p_command updates))
    (default (last_launched_at tui) (p_last_launched_at updates))
    (default (launch_count tui) (p_launch_count updates)).

(** [set({ tuis })]: zustand merges the partial state into the state. *)
Definition setTUIs (l : list TUI) (st : AppState) : AppState :=
  mkAppState (activeTab st) l (categories st) (showcaseTUI st)
    (searchQuery st) (categoryFilter st) (sourceFilter st)
    (installedFilter st) (theme st) (isLoading st) (error st).

Definition setActiveTab (tab : string) (st : AppState) : AppState :=
  mkAppState tab (tuis st) (categories st) (showcaseTUI st)
    (searchQuery st) (categoryFilter st) (sourceFilter st)
    (installedFilter st) (theme st) (isLoading st) (error st).

Definition addTUI (tui : TUI) (st : AppState) : AppState :=
  setTUIs (tuis st ++ [tui]) st.

Definition updateTUI (i : Z) (updates : PartialTUI) (st : AppState)
    : AppState :=
  setTUIs
    ((fun tui => if decide (id tui = Some i) then spread tui updates else tui)
       <$> tuis st) st.

Definition removeTUI (i : Z) (st : AppState) : AppState :=
  setTUIs (filter (fun tui => id tui <> Some i) (tuis st)) st.

(** [{ ...u1, ...u2 }] on two partial records. *)
Definition overlay (u1 u2 : PartialTUI) : PartialTUI :=
  mkPartialTUI
    (match p_id u2 with Some v => Some v | None => p_id u1 end)
    (match p_name u2 with Some v => Some v | None => p_name u1 end)
    (match p_command u2 with Some v => Some v | None => p_command u1 end)
    (match p_last_launched_at u2 with
     | Some v => Some v
     | None => p_last_launched_at u1
     end)
    (match p_launch_count u2 with
     | Some v => Some v
     | None => p_launch_count u1
     end).

End AppStore.

(** ** Tab navigation (App.tsx) *)

Module App.

Record Tab : Type := mkTab {
  tab_id : string;
  label : string;
  hotkey : string;
}.

Definition tabs : list Tab :=
  [mkTab "installed" "Installed" "1"; mkTab "discover" "Discover" "2";
   mkTab "categories" "Categories" "3"; mkTab "favorites" "Favorites" "4";
   mkTab "showcase" "Showcase" "5"; mkTab "settings" "Settings" "6";
   mkTab "search" "Search" "7"].

(** What the component holds: its own [selectedTabIndex], the global
    state, and the exit code once [process.exit] was called. *)
Record View : Type := mkView {
  selectedTabIndex : Z;
  state : AppStore.AppState;
  exited : option Z;
}.

(** [useState(4)] over the store's initial state. *)
Definition initial : View := mkView 4 AppStore.initial None.

(** [tabs[i]]: [undefined] outside the array. *)
Definition tab_at (i : Z) : option Tab :=
  if i <? 0 then None else tabs !! Z.to_nat i.

(** [setSelectedTabIndex(i); setActiveTab(tabs[i].id)]; reading [.id] of
    [undefined] throws. *)
Definition select (i : Z) (v : View) : Outcome unit * View :=
  let v' := mkView i (state v) (exited v) in
  match tab_at i with
  | Some tab =>
      (Val tt, mkView i (AppStore.setActiveTab (tab_id tab) (state v))
                 (exited v))
  | None => (Raise (ErrorObject "undefined is not an object"), v')
  end.

Section Keyboard.

(** [parseInt] of the language, [NaN] being [None]. *)
Context (parseInt : string -> option Z).

(** [num >= 1 && num <= 7], false for [NaN]. *)
Definition tab_number (num : option Z) : option Z :=
  match num with
  | Some n => if (1 <=? n) && (n <=? 7) then Some n else None
  | None => None
  end.

(** The [useKeyboard] handler; [%] is the remainder of truncated
    division.  Its debug [console.log] is left out. *)
Definition handleKey (key : string) (v : View) : Outcome unit * View :=
  let count := Z.of_nat (length tabs) in
  match tab_number (parseInt key) with
  | Some num => select (num - 1) v
  | None =>
      if String.eqb key "left" || String.eqb key "h" then
        select (Z.rem (selectedTabIndex v - 1 + count) count) v
      else if String.eqb key "right" || String.eqb key "l" then
        select (Z.rem (selectedTabIndex v + 1) count) v
      else if String.eqb key "q" then
        (Val tt, mkView (selectedTabIndex v) (state v) (Some 0))
      else (Val tt, v)
  end.

(** The keys pressed one after the other, until the process exits or the
    handler throws. *)
Fixpoint press (keys : list string) (v : View) : Outcome unit * View :=
  match keys with
  | [] => (Val tt, v)
  | key :: rest =>
      match exited v with
      | Some _ => (Val tt, v)
      | None =>
          match handleKey key v with
          | (Val _, v') => press rest v'
          | (Raise e, v') => (Raise e, v')
          end
      end
  end.

End Keyboard.

(** The selected index is in range and the active tab is the tab at that
    index. *)
Definition in_sync (v : View) : Prop :=
  0 ≤ selectedTabIndex v < 7
  /\ tab_id <$> tab_at (selectedTabIndex v)
     = Some (AppStore.activeTab (state v)).

(** A [parseInt] for the keys of the scenarios: one decimal digit. *)
Definition digit (key : string) : option Z :=
  if String.eqb key "0" then Some 0 else if String.eqb key "1" then Some 1
  else if String.eqb key "2" then Some 2 else if String.eqb key "3" then Some 3
  else if String.eqb key "4" then Some 4 else if String.eqb key "5" then Some 5
  else if String.eqb key "6" then Some 6 else if String.eqb key "7" then Some 7
  else if String.eqb key "8" then Some 8 else if String.eqb key "9" then Some 9
  else None.

End App.

(** ** DatabaseService: the registry columns and the settings *)

Module Db.

(** A row of [settings]. *)
Record Setting : Type := mkSetting {
  key : string;
  value : string;
  type : option string;
}.

(** The columns of a [tuis] row that the registry reads or writes besides
    those of [TUI].  [is_installed] and [is_favorite] are the integers
    SQLite holds. *)
Record Details : Type := mkDetails {
  slug : string;
  category : option string;
  source : string;
  is_installed : Z;
  is_favorite : Z;
  updated_at : Z;
}.

(** The database: the tables of [Store], the remaining columns of [tuis]
    by row id, the AUTOINCREMENT counter of [tuis], and [settings] by
    key.  Rows of [tuis] are inserted through the counter only, so no row
    id is above it. *)
Record Database : Type := mkDatabase {
  core : Store;
  details : gmap Z Details;
  tui_seq : Z;
  settings : gmap string Setting;
}.

(** A [TUI] object as [rowToTUI] hands it out. *)
Record Entry : Type := mkEntry {
  base : TUI;
  e_slug : string;
  e_category : option string;
  e_source : string;
  e_is_installed : bool;
  e_is_favorite : bool;
  e_updated_at : Z;
}.

(** [{...row, is_installed: row.is_installed === 1, is_favorite:
    row.is_favorite === 1}] *)
Definition rowToTUI (row : TUI * Details) : Entry :=
  mkEntry row.1 (slug row.2) (category row.2) (source row.2)
    (bool_decide (is_installed row.2 = 1))
    (bool_decide (is_favorite row.2 = 1)) (updated_at row.2).

(** The rows of [tuis], by id. *)
Definition table (db : Database) : gmap Z (TUI * Details) :=
  map_zip (tuis (core db)) (details db).

(** [ORDER BY name ASC], strings compared byte by byte. *)
Definition name_le (a b : TUI * Details) : Prop :=
  String.leb (name a.1) (name b.1) = true.

#[global] Instance name_le_dec : RelDecision name_le :=
  fun a b => decide (String.leb (name a.1) (name b.1) = true).

(** [getTUI]: [SELECT * FROM tuis WHERE id = ?] *)
Definition getTUI (tid : Z) (db : Database) : Outcome (option Entry) :=
  if closed (core db) then Raise closed_database
  else Val (rowToTUI <$> table db !! tid).

(** [getTUIBySlug]: [SELECT * FROM tuis WHERE slug = ?], the first row. *)
Definition getTUIBySlug (s : string) (db : Database)
    : Outcome (option Entry) :=
  if closed (core db) then Raise closed_database
  else
    Val (rowToTUI
           <$> head (filter (fun row => slug row.2 = s)
                       (map_to_list (table db)).*2)).

Record Filters : Type := mkFilters {
  f_is_installed : option bool;
  f_is_favorite : option bool;
  f_category : option string;
}.

Definition no_filters : Filters := mkFilters None None None.

(** The [WHERE] clause [getAllTUIs] builds: [is_installed = ?] and
    [is_favorite = ?] when the filter is defined, [category = ?] when it
    is a non-empty string. *)
Definition matches (filters : Filters) (row : TUI * Details) : Prop :=
  match f_is_installed filters with
  | Some b => is_installed row.2 = (if b then 1 else 0)
  | None => True
  end
  /\ match f_is_favorite filters with
     | Some b => is_favorite row.2 = (if b then 1 else 0)
     | None => True
     end
  /\ match string_or_absent (f_category filters) with
     | Some c => category row.2 = Some c
     | None => True
     end.

#[global] Instance matches_dec filters row : Decision (matches filters row).
Proof.
  unfold matches.
  destruct (f_is_installed filters), (f_is_favorite filters),
    (string_or_absent (f_category filters)); apply _.
Defined.

(** The rows [getAllTUIs] selects: [SELECT * FROM tuis WHERE ... ORDER BY
    name ASC]. *)
Definition select_rows (filters : Filters) (db : Database)
    : list (TUI * Details) :=
  merge_sort name_le (filter (matches filters) (map_to_list (table db)).*2).

(** [getAllTUIs(filters)] *)
Definition getAllTUIs (filters : Filters) (db : Database)
    : Outcome (list Entry) :=
  if closed (core db) then Raise closed_database
  else Val (rowToTUI <$> select_rows filters db).

(** The argument of [addTUI], over the columns carried. *)
Record NewTUI : Type := mkNewTUI {
  n_name : string;
  n_slug : string;
  n_command : string;
  n_category : option string;
  n_source : string;
  n_is_installed : bool;
  n_is_favorite : bool;
  n_launch_count : Z;
}.

(** [addTUI]: the INSERT fails when the slug is taken ([slug TEXT UNIQUE]);
    [category || null], [is_installed ? 1 : 0], [launch_count || 0];
    [last_launched_at] is not among the columns written, and
    [updated_at] defaults to the current time.  It returns the new id. *)
Definition addTUI (ts : Z) (tui : NewTUI) (db : Database)
    : Outcome Z * Database :=
  if closed (core db) then (Raise closed_database, db)
  else if bool_decide
            (Exists (fun row => slug row.2 = n_slug tui)
               (map_to_list (table db)).*2)
  then (Raise (ErrorObject "UNIQUE constraint failed: tuis.slug"), db)
  else
    let rowid := tui_seq db + 1 in
    (Val rowid,
     mkDatabase
       (mkStore (closed (core db))
          (<[rowid := mkTUI (Some rowid) (n_name tui) (n_command tui) None
                        (default 0
                           (number_or_absent (Some (n_launch_count tui))))]>
             (tuis (core db)))
          (launch_history (core db)) (history_seq (core db)))
       (<[rowid := mkDetails (n_slug tui) (string_or_absent (n_category tui))
                     (n_source tui)
                     (if n_is_installed tui then 1 else 0)
                     (if n_is_favorite tui then 1 else 0) ts]>
          (details db))
       rowid (settings db)).

(** [Partial<TUI>] over the columns carried: the keys of [TUI] and those
    of [Details] but [updated_at]. *)
Record Updates : Type := mkUpdates {
  u_core : AppStore.PartialTUI;
  u_slug : option string;
  u_category : option (option string);
  u_source : option string;
  u_is_installed : option bool;
  u_is_favorite : option bool;
}.

(** Whether [fields] stays empty: the [id] key is skipped. *)
Definition no_fields (updates : Updates) : bool :=
  match AppStore.p_name (u_core updates),
        AppStore.p_command (u_core updates),
        AppStore.p_last_launched_at (u_core updates),
        AppStore.p_launch_count (u_core updates),
        u_slug updates, u_category updates, u_source updates,
        u_is_installed updates, u_is_favorite updates with
  | None, None, None, None, None, None, None, None, None => true
  | _, _, _, _, _, _, _, _, _ => false
  end.

(** The [SET] clause applied to a row: each key present sets its column,
    [is_installed] and [is_favorite] as [value ? 1 : 0], and [updated_at]
    becomes the current time. *)
Definition assign (ts : Z) (updates : Updates) (row : TUI * Details)
    : TUI * Details :=
  let c := u_core updates in
  (mkTUI (id row.1)
     (default (name row.1) (AppStore.p_name c))
     (default (command row.1) (AppStore.p_command c))
     (default (last_launched_at row.1) (AppStore.p_last_launched_at c))
     (default (launch_count row.1) (AppStore.p_launch_count c)),
   mkDetails
     (default (slug row.2) (u_slug updates))
     (default (category row.2) (u_category updates))
     (default (source row.2) (u_source updates))
     (match u_is_installed updates with
      | Some b => if b then 1 else 0
      | None => is_installed row.2
      end)
     (match u_is_favorite updates with
      | Some b => if b then 1 else 0
      | None => is_favorite row.2
      end)
     ts).

(** [updateTUI(id, updates)]: [false] when no field is left to set; the
    UPDATE fails when it would give the row a slug another row has; the
    result is [changes > 0]. *)
Definition updateTUI (ts : Z) (tid : Z) (updates : Updates) (db : Database)
    : Outcome bool * Database :=
  if no_fields updates then (Val false, db)
  else if closed (core db) then (Raise closed_database, db)
  else
    match table db !! tid with
    | None => (Val false, db)
    | Some row =>
        let row' := assign ts updates row in
        if bool_decide
             (Exists (fun other => other.1 <> tid
                                   /\ slug other.2.2 = slug row'.2)
                (map_to_list (table db)))
        then (Raise (ErrorObject "UNIQUE constraint failed: tuis.slug"), db)
        else
          (Val true,
           mkDatabase
             (mkStore (closed (core db)) (<[tid := row'.1]> (tuis (core db)))
                (launch_history (core db)) (history_seq (core db)))
             (<[tid := row'.2]> (details db))
             (tui_seq db) (settings db))
    end.

(** [getSetting]: [SELECT * FROM settings WHERE key = ?] *)
Definition getSetting (k : string) (db : Database)
    : Outcome (option Setting) :=
  if closed (core db) then Raise closed_database
  else Val (settings db !! k).

(** [setSetting]: [INSERT ... ON CONFLICT(key) DO UPDATE SET value = ?,
    type = ?] *)
Definition setSetting (k v ty : string) (db : Database)
    : Outcome unit * Database :=
  if closed (core db) then (Raise closed_database, db)
  else
    (Val tt,
     mkDatabase (core db) (details db) (tui_seq db)
       (<[k := mkSetting k v (Some ty)]> (settings db))).

(** [getAllSettings] *)
Definition getAllSettings (db : Database) : Outcome (list Setting) :=
  if closed (core db) then Raise closed_database
  else Val (map_to_list (settings db)).*2.

(** Every row of either column group has its other half, no row id is
    above the counter, each row carries its id, each setting its key, and
    slugs are unique. *)
Definition well_formed (db : Database) : Prop :=
  dom (tuis (core db)) = dom (details db)
  /\ (forall k row, table db !! k = Some row ->
         k ≤ tui_seq db /\ id row.1 = Some k)
  /\ (forall k1 k2 row1 row2,
         table db !! k1 = Some row1 -> table db !! k2 = Some row2 ->
         slug row1.2 = slug row2.2 -> k1 = k2)
  /\ (forall k st, settings db !! k = Some st -> key st = k).

End Db.

(** ** RegistryManager (core/registry/manager.ts) *)

Module Registry.

(** [Array.prototype.sort] with a comparator: a stable sort. *)
Fixpoint insert_sorted {A} (compare : A -> A -> Z) (x : A) (l : list A)
    : list A :=
  match l with
  | [] => [x]
  | y :: rest =>
      if compare x y <=? 0 then x :: y :: rest
      else y :: insert_sorted compare x rest
  end.

Definition sort {A} (compare : A -> A -> Z) (l : list A) : list A :=
  foldr (insert_sorted compare) [] l.

(** [Array.prototype.slice(0, end)]: a negative [end] counts from the end
    of the array. *)
Definition slice_to {A} (finish : Z) (l : list A) : list A :=
  let len := Z.of_nat (length l) in
  let final := if finish <? 0 then Z.max (len + finish) 0
               else Z.min finish len in
  take (Z.to_nat final) l.

(** A value [v] returned, or the exception passed on. *)
Definition pass {A B} (f : A -> B) (r : Outcome A) : Outcome B :=
  match r with
  | Val a => Val (f a)
  | Raise e => Raise e
  end.

(** [add]: refuses a slug that is taken, else [addTUI]. *)
Definition add (ts : Z) (tui : Db.NewTUI) (db : Db.Database)
    : Outcome Z * Db.Database :=
  match Db.getTUIBySlug (Db.n_slug tui) db with
  | Raise e => (Raise e, db)
  | Val (Some _) =>
      (Raise (ErrorObject
                ("TUI with slug '" +:+ Db.n_slug tui +:+ "' already exists")),
       db)
  | Val None => Db.addTUI ts tui db
  end.

Definition getInstalled (db : Db.Database) : Outcome (list Db.Entry) :=
  Db.getAllTUIs (Db.mkFilters (Some true) None None) db.

Definition getFavorites (db : Db.Database) : Outcome (list Db.Entry) :=
  Db.getAllTUIs (Db.mkFilters None (Some true) None) db.

Definition getByCategory (category : string) (db : Db.Database)
    : Outcome (list Db.Entry) :=
  Db.getAllTUIs (Db.mkFilters None None (Some category)) db.

(** [getBySource]: all TUIs, filtered in memory. *)
Definition getBySource (source : string) (db : Db.Database)
    : Outcome (list Db.Entry) :=
  pass (filter (fun tui => Db.e_source tui = source))
    (Db.getAllTUIs Db.no_filters db).

(** [toggleFavorite] *)
Definition toggleFavorite (ts : Z) (tid : Z) (db : Db.Database)
    : Outcome bool * Db.Database :=
  match Db.getTUI tid db with
  | Raise e => (Raise e, db)
  | Val None => (Val false, db)
  | Val (Some tui) =>
      Db.updateTUI ts tid
        (Db.mkUpdates (AppStore.mkPartialTUI None None None None None)
           None None None None (Some (negb (Db.e_is_favorite tui))))
        db
  end.

(** [(a, b) => b.launch_count - a.launch_count] *)
Definition by_launch_count (a b : Db.Entry) : Z :=
  launch_count (Db.base b) - launch_count (Db.base a).

(** [getMostLaunched(limit = 10)] *)
Definition getMostLaunched (limit : option Z) (db : Db.Database)
    : Outcome (list Db.Entry) :=
  pass (fun installed =>
          slice_to (default 10 limit) (sort by_launch_count installed))
    (Db.getAllTUIs (Db.mkFilters (Some true) None None) db).

(** [recordLaunch(tuiId, exitCode?, durationMs?)]: no error message, and
    an exception of the store is passed on. *)
Definition recordLaunch (ts : Z) (tuiId : Z) (exitCode durationMs : option Z)
    (s : Store) : Outcome Z * Store :=
  addLaunchHistory ts (mkHistoryEntry (Some tuiId) exitCode durationMs None) s.

End Registry.

(** The registry columns of a row after [toggleFavorite] at time [ts]. *)
Definition toggled (ts : Z) (row : TUI * Db.Details) : Db.Details :=
  Db.mkDetails (Db.slug row.2) (Db.category row.2) (Db.source row.2)
    (Db.is_installed row.2)
    (if bool_decide (Db.is_favorite row.2 = 1) then 0 else 1) ts.

(** [a] has been launched at least as often as [b]. *)
Definition more_launched (a b : Db.Entry) : Prop :=
  launch_count (Db.base b) ≤ launch_count (Db.base a).

(** ** Scenarios

    Concrete hosts, stores and options the statements below are run on. *)

Definition htop : TUI := mkTUI (Some 1) "htop" "htop" None 0.

Definition catalog : Store := mkStore false {[ 1 := htop ]} [] 0.

Definition fresh : World := mkWorld 0 catalog [] [] [].

(** A clock that advances 7 ms per reading. *)
Definition ticking (k : nat) : Z := 1000 + 7 * Z.of_nat k.

(** A host with no terminal emulator on the search path. *)
Definition bare_host : Host :=
  mkHost ticking (fun k => 50 + Z.of_nat k) (fun _ => ProbeExited 1)
    (fun _ => Spawned []) "/home/user".

(** A host where only kitty is installed and every child emits [events]. *)
Definition kitty_host (events : list ChildEvent) : Host :=
  mkHost ticking (fun k => 50 + Z.of_nat k)
    (fun t => if String.eqb t "kitty" then ProbeExited 0 else ProbeExited 1)
    (fun _ => Spawned events) "/home/user".

(** A host where kitty is installed but [spawn] throws. *)
Definition broken_host : Host :=
  mkHost ticking (fun k => 50 + Z.of_nat k)
    (fun t => if String.eqb t "kitty" then ProbeExited 0 else ProbeExited 1)
    (fun _ => SpawnThrows (ErrorObject "spawn EPERM")) "/home/user".

Definition detached : LaunchOptions := mkLaunchOptions None None None None.

Definition attached : LaunchOptions :=
  mkLaunchOptions None None None (Some true).

(** A registry with two TUIs, htop installed and btop a favourite, and one
    setting. *)
Definition btop : TUI := mkTUI (Some 2) "btop" "btop" (Some 40) 3.

Definition registry : Db.Database :=
  Db.mkDatabase
    (mkStore false {[ 1 := htop; 2 := btop ]} [] 0)
    {[ 1 := Db.mkDetails "htop" (Some "System") "manual" 1 0 10;
       2 := Db.mkDetails "btop" (Some "System") "github" 0 1 20 ]}
    2
    {[ "theme" := Db.mkSetting "theme" "tokyonight" (Some "string") ]}.

(** A store that has seen launches: htop twice, btop once. *)
Definition veteran : TUI := mkTUI (Some 1) "htop" "htop" (Some 30) 2.

Definition seasoned : Store :=
  mkStore false
    {[ 1 := veteran; 2 := mkTUI (Some 2) "btop" "btop" (Some 40) 1 ]}
    [mkLaunchHistory 1 1 20 None (Some 5) None;
     mkLaunchHistory 2 2 40 (Some 1) (Some 9) None;
     mkLaunchHistory 3 1 30 None None (Some "spawn EPERM")]
    3.

Definition seasoned_world : World := mkWorld 0 seasoned [] [] [].

(** A registry of four TUIs, three of them installed, two of those
    launched equally often. *)
Definition shelf : Db.Database :=
  Db.mkDatabase
    (mkStore false
       {[ 1 := mkTUI (Some 1) "ncdu" "ncdu" None 5;
          2 := mkTUI (Some 2) "btop" "btop" (Some 40) 9;
          3 := mkTUI (Some 3) "htop" "htop" (Some 30) 5;
          4 := mkTUI (Some 4) "lazygit" "lazygit" (Some 10) 12 ]}
       [] 0)
    {[ 1 := Db.mkDetails "ncdu" (Some "Files") "manual" 1 0 10;
       2 := Db.mkDetails "btop" (Some "System") "github" 1 1 20;
       3 := Db.mkDetails "htop" (Some "System") "manual" 1 0 30;
       4 := Db.mkDetails "lazygit" (Some "Git") "github" 0 0 40 ]}
    4
    ∅.

(** ** The command builder *)

Lemma fullCommand_join command args :
  fullCommand command args = join " " (command :: args).
Proof.
  unfold fullCommand, join.
  destruct args as [|a rest]; reflexivity.
Qed.


Lemma buildLaunchCommand_cons terminal command args :
  buildLaunchCommand terminal command args
  = hd "" (buildLaunchCommand terminal command args)
    :: tl (buildLaunchCommand terminal command args).
Proof.
  unfold buildLaunchCommand.
  repeat (case (String.eqb terminal _); [reflexivity|]).
  reflexivity.
Qed.

Lemma buildLaunchCommand_wraps terminal :
  exists emulator flags,
    forall command args,
      buildLaunchCommand terminal command args
      = emulator :: flags ++ ["sh"; "-c"; fullCommand command args].
Proof.
  unfold buildLaunchCommand.
  repeat (case (String.eqb terminal _);
          [eexists _, _; intros; cbn zeta;
           first [ exact (eq_refl (_ :: [] ++ _))
                 | exact (eq_refl (_ :: [_] ++ _))
                 | exact (eq_refl (_ :: [_; _] ++ _)) ]|]).
  exists "xterm", ["-e"]. reflexivity.
Qed.


(** C8: a terminal identifier outside the emulator table gets the xterm
    wrapper around the joined command. *)
Theorem buildLaunchCommand_unknown_terminal terminal command args :
  terminal ∉ terminals ->
  buildLaunchCommand terminal command args
  = ["xterm"; "-e"; "sh"; "-c"; join " " (command :: args)].
Proof.
  intros Hnot. rewrite <- fullCommand_join.
  unfold buildLaunchCommand.
  repeat match goal with
  | |- context [String.eqb terminal ?k] =>
      destruct (String.eqb_spec terminal k) as [->|_];
      [exfalso; apply Hnot; unfold terminals; set_solver|]
  end.
  reflexivity.
Qed.

Lemma buildLaunchCommand_unknown_terminal_foot :
  ("foot" ∉ terminals)
  /\ buildLaunchCommand "foot" "htop" ["-d"; "5"]
     = ["xterm"; "-e"; "sh"; "-c"; "htop -d 5"].
Proof.
  assert (H : "foot" ∉ terminals).
  { unfold terminals. intros Hin.
    repeat (apply elem_of_cons in Hin as [Hin|Hin]; [discriminate Hin|]).
    inversion Hin. }
  split; [exact H|].
  exact (buildLaunchCommand_unknown_terminal "foot" "htop" ["-d"; "5"] H).
Defined.

(** ** The terminal detector *)

Lemma detect_from_run host candidates w :
  detect_from host candidates w
  = (Val (find (resolves host) candidates),
     with_probes (probed host candidates) w).
Proof.
  revert w. induction candidates as [|t rest IH]; intros w.
  - destruct w. unfold with_probes. simpl. rewrite app_nil_r. reflexivity.
  - simpl. unfold mbind, M_bind, bind, try_catch, probe, resolves.
    destruct (which host t) as [code|e]; simpl.
    + destruct (code =? 0); simpl.
      * reflexivity.
      * rewrite IH. unfold with_probes, log_probe. simpl.
        rewrite <- app_assoc. reflexivity.
    + rewrite IH. unfold with_probes, log_probe. simpl.
      rewrite <- app_assoc. reflexivity.
Qed.

Lemma find_split {A} (p : A -> bool) (l : list A) :
  match find p l with
  | Some x =>
      exists before after,
        l = before ++ x :: after /\ p x = true
        /\ Forall (fun y => p y = false) before
  | None => Forall (fun y => p y = false) l
  end.
Proof.
  induction l as [|a l IH]; simpl.
  - constructor.
  - destruct (p a) eqn:Ha.
    + exists [], l. repeat split; [exact Ha | constructor].
    + destruct (find p l) as [x|].
      * destruct IH as (before & after & -> & Hx & Hb).
        exists (a :: before), after. repeat split; [exact Hx|].
        constructor; assumption.
      * constructor; assumption.
Qed.

Lemma probed_split host before t after :
  Forall (fun y => resolves host y = false) before ->
  resolves host t = true ->
  probed host (before ++ t :: after) = before ++ [t].
Proof.
  induction 1 as [|b before Hb _ IH]; intros Ht; simpl.
  - rewrite Ht. reflexivity.
  - rewrite Hb, IH by exact Ht. reflexivity.
Qed.

Lemma probed_none host l :
  Forall (fun y => resolves host y = false) l -> probed host l = l.
Proof.
  induction 1 as [|b l Hb _ IH]; simpl; [reflexivity|].
  rewrite Hb, IH. reflexivity.
Qed.

(** The detector returns null, and does not throw, when every probe
    throws. *)
Example detectTerminal_probes_throw :
  (detectTerminal
     (mkHost ticking ticking (fun _ => ProbeThrows (ErrorObject "ENOENT"))
        (fun _ => Spawned []) "/")
     fresh).1
  = Val None.
Proof. reflexivity. Qed.

(** C9: [detectTerminal] walks the fixed list alacritty, kitty, wezterm,
    gnome-terminal, konsole, xterm, urxvt, terminator, tilix in that order.
    It returns the first candidate whose probe exits with 0, having probed
    exactly the candidates up to and including that one; it returns null
    when no candidate resolves, having probed all nine; and it never throws,
    whatever the probes do.  Nothing but the record of probes changes. *)
Theorem detectTerminal_first_available host w :
  terminals = ["alacritty"; "kitty"; "wezterm"; "gnome-terminal"; "konsole";
               "xterm"; "urxvt"; "terminator"; "tilix"]
  /\ exists found w',
      detectTerminal host w = (Val found, w')
      /\ clock w' = clock w /\ store w' = store w
      /\ spawns w' = spawns w /\ console w' = console w
      /\ match found with
         | Some t =>
             exists before after,
               terminals = before ++ t :: after
               /\ resolves host t = true
               /\ Forall (fun u => resolves host u = false) before
               /\ probes w' = probes w ++ before ++ [t]
         | None =>
             Forall (fun u => resolves host u = false) terminals
             /\ probes w' = probes w ++ terminals
         end.
Proof.
  split; [reflexivity|].
  unfold detectTerminal. rewrite detect_from_run.
  eexists _, _. split; [reflexivity|].
  repeat (split; [reflexivity|]).
  pose proof (find_split (resolves host) terminals) as Hfind.
  destruct (find (resolves host) terminals) as [t|].
  - destruct Hfind as (before & after & Heq & Ht & Hb).
    exists before, after. repeat (split; [assumption|]).
    unfold with_probes. cbn [probes].
    rewrite Heq, probed_split by assumption. reflexivity.
  - split; [assumption|].
    unfold with_probes. cbn [probes].
    rewrite probed_none by assumption. reflexivity.
Qed.

(** ** The store *)

Lemma addLaunchHistory_run ts t row ec dur msg s :
  closed s = false ->
  tuis s !! t = Some row ->
  addLaunchHistory ts (mkHistoryEntry (Some t) ec dur msg) s
  = (Val (history_seq s + 1),
     mkStore false (alter (touch ts) t (tuis s))
       (launch_history s
        ++ [mkLaunchHistory (history_seq s + 1) t ts (number_or_absent ec)
              (number_or_absent dur) (string_or_absent msg)])
       (history_seq s + 1)).
Proof.
  intros Hopen Hrow. unfold addLaunchHistory, insert_history. simpl.
  rewrite Hopen, Hrow. reflexivity.
Qed.

Lemma addLaunchHistory_raise ts history s e s' :
  addLaunchHistory ts history s = (Raise e, s') -> s' = s.
Proof.
  unfold addLaunchHistory, insert_history.
  destruct (closed s); [intros [= _ <-]; reflexivity|].
  destruct (tui_id history) as [t|]; [|intros [= _ <-]; reflexivity].
  destruct (tuis s !! t); [discriminate|intros [= _ <-]; reflexivity].
Qed.

(** C10: [addLaunchHistory] binds [exit_code || null], [duration_ms || null]
    and [error_message || null].  On an open store that holds the target's
    row the call returns the new row's id and appends one row, in which an
    exit code of 0, a duration of 0 ms and an empty error message are stored
    as NULL and every other value as it was given; so an entry with exit
    code 0 is inserted, and it leaves the store exactly as the same entry
    with no exit code does (and likewise for the other two fields). *)
Theorem addLaunchHistory_falsy_fields_absent ts t row ec dur msg s :
  closed s = false ->
  tuis s !! t = Some row ->
  exists s',
    addLaunchHistory ts (mkHistoryEntry (Some t) ec dur msg) s
    = (Val (history_seq s + 1), s')
    /\ launch_history s'
       = launch_history s
         ++ [mkLaunchHistory (history_seq s + 1) t ts
               (match ec with Some 0 => None | v => v end)
               (match dur with Some 0 => None | v => v end)
               (match msg with Some "" => None | v => v end)]
    /\ (exists s0,
          addLaunchHistory ts (mkHistoryEntry (Some t) (Some 0) dur msg) s
          = (Val (history_seq s + 1), s0)
          /\ addLaunchHistory ts (mkHistoryEntry (Some t) None dur msg) s
             = (Val (history_seq s + 1), s0)
          /\ lh_exit_code <$> last (launch_history s0) = Some None)
    /\ (exists s0,
          addLaunchHistory ts (mkHistoryEntry (Some t) ec (Some 0) msg) s
          = (Val (history_seq s + 1), s0)
          /\ addLaunchHistory ts (mkHistoryEntry (Some t) ec None msg) s
             = (Val (history_seq s + 1), s0)
          /\ lh_duration_ms <$> last (launch_history s0) = Some None)
    /\ (exists s0,
          addLaunchHistory ts (mkHistoryEntry (Some t) ec dur (Some "")) s
          = (Val (history_seq s + 1), s0)
          /\ addLaunchHistory ts (mkHistoryEntry (Some t) ec dur None) s
             = (Val (history_seq s + 1), s0)
          /\ lh_error_message <$> last (launch_history s0) = Some None).
Proof.
  intros Hopen Hrow.
  eexists. split; [exact (addLaunchHistory_run ts t row ec dur msg s Hopen Hrow)|].
  split.
  - cbn [launch_history]. do 2 f_equal. f_equal.
    + destruct ec as [[| |]|]; reflexivity.
    + destruct dur as [[| |]|]; reflexivity.
    + destruct msg as [[|]|]; reflexivity.
  - repeat split; eexists;
      rewrite !(addLaunchHistory_run ts t row) by assumption;
      (split; [reflexivity|]); (split; [reflexivity|]);
      cbn [launch_history]; rewrite last_snoc; reflexivity.
Qed.

Lemma addLaunchHistory_falsy_fields_absent_seasoned :
  exists s',
    addLaunchHistory 52 (mkHistoryEntry (Some 1) (Some 0) (Some 0) (Some ""))
      seasoned
    = (Val 4, s')
    /\ launch_history s'
       = [mkLaunchHistory 1 1 20 None (Some 5) None;
          mkLaunchHistory 2 2 40 (Some 1) (Some 9) None;
          mkLaunchHistory 3 1 30 None None (Some "spawn EPERM");
          mkLaunchHistory 4 1 52 None None None]
    /\ (exists s0,
          addLaunchHistory 52
            (mkHistoryEntry (Some 1) (Some 0) (Some 0) (Some "")) seasoned
          = (Val 4, s0)
          /\ addLaunchHistory 52
               (mkHistoryEntry (Some 1) None (Some 0) (Some "")) seasoned
             = (Val 4, s0)
          /\ lh_exit_code <$> last (launch_history s0) = Some None)
    /\ (exists s0,
          addLaunchHistory 52
            (mkHistoryEntry (Some 1) (Some 0) (Some 0) (Some "")) seasoned
          = (Val 4, s0)
          /\ addLaunchHistory 52
               (mkHistoryEntry (Some 1) (Some 0) None (Some "")) seasoned
             = (Val 4, s0)
          /\ lh_duration_ms <$> last (launch_history s0) = Some None)
    /\ (exists s0,
          addLaunchHistory 52
            (mkHistoryEntry (Some 1) (Some 0) (Some 0) (Some "")) seasoned
          = (Val 4, s0)
          /\ addLaunchHistory 52
               (mkHistoryEntry (Some 1) (Some 0) (Some 0) None) seasoned
             = (Val 4, s0)
          /\ lh_error_message <$> last (launch_history s0) = Some None).
Proof.
  apply (addLaunchHistory_falsy_fields_absent 52 1 veteran (Some 0) (Some 0)
           (Some "") seasoned); reflexivity.
Defined.

(** ** Running [launch] *)

Lemma recordLaunch_run host tuiId result w :
  recordLaunch host tuiId result w
  = match addLaunchHistory (current_timestamp host (clock w))
            (mkHistoryEntry tuiId (exitCode result) (duration result)
               (error result)) (store w) with
    | (Val _, s') => (Val tt, set_store s' w)
    | (Raise e, _) =>
        (Val tt, log_console ("Failed to record launch: " +:+ describe e) w)
    end.
Proof.
  unfold recordLaunch, try_catch, mbind, M_bind, bind, db_addLaunchHistory.
  destruct (addLaunchHistory _ _ (store w)) as [[rowid|e] s'] eqn:Hadd.
  - reflexivity.
  - apply addLaunchHistory_raise in Hadd as ->.
    unfold console_error, set_store, log_console. simpl.
    destruct w; reflexivity.
Qed.

Lemma recordLaunch_val host tuiId result w :
  recordLaunch host tuiId result w = (Val tt, recorded host tuiId result w).
Proof.
  unfold recorded. rewrite recordLaunch_run.
  destruct (addLaunchHistory _ _ _) as [[?|?] ?]; reflexivity.
Qed.

Lemma recorded_frame host tuiId result w :
  clock (recorded host tuiId result w) = clock w
  /\ probes (recorded host tuiId result w) = probes w
  /\ spawns (recorded host tuiId result w) = spawns w.
Proof.
  unfold recorded. rewrite recordLaunch_run.
  destruct (addLaunchHistory _ _ _) as [[?|?] ?]; repeat split.
Qed.

Lemma terminals_nonempty t : In t terminals -> String.eqb t "" = false.
Proof.
  unfold terminals. simpl.
  intros H. repeat (destruct H as [<-|H]; [reflexivity|]). destruct H.
Qed.

Lemma chosen_terminal_truthy host options :
  string_or_absent (chosen_terminal host options)
  = chosen_terminal host options.
Proof.
  unfold chosen_terminal.
  destruct (string_or_absent (terminal options)) as [t|] eqn:Hopt.
  - unfold string_or_absent in *.
    destruct (terminal options) as [t'|]; [|discriminate].
    destruct (String.eqb t' "") eqn:Ht'; [discriminate|].
    injection Hopt as <-. rewrite Ht'. reflexivity.
  - destruct (find (resolves host) terminals) as [t|] eqn:Hfind;
      [|reflexivity].
    apply find_some in Hfind as [Hin _].
    simpl. rewrite (terminals_nonempty _ Hin). reflexivity.
Qed.

Lemma settle_terminal_run host options w :
  match string_or_absent (terminal options) with
  | Some t => ret (Some t)
  | None => detectTerminal host
  end w
  = (Val (chosen_terminal host options), after_detect host options w).
Proof.
  unfold chosen_terminal, after_detect.
  destruct (string_or_absent (terminal options)); [reflexivity|].
  apply detect_from_run.
Qed.

Lemma launch_try_run host tui options startTime w :
  launch_try host tui options startTime w
  = match chosen_terminal host options with
    | None =>
        (Val (Return (mkLaunchResult false None None
                        (Some no_terminal_message))),
         after_detect host options w)
    | Some term =>
        let w1 := log_spawn (spawn_call host tui options term)
                    (after_detect host options w) in
        match os_spawn host (spawn_call host tui options term) with
        | SpawnThrows e => (Raise e, w1)
        | Spawned events =>
            if default false (waitForExit options) then
              (Val (Await events (listener host tui startTime)), w1)
            else
              let first := mkLaunchResult true None
                             (Some (now host (clock w) - startTime)) None in
              (Val (Return (mkLaunchResult true None
                              (Some (now host (S (clock w)) - startTime))
                              None)),
               set_clock (S (S (clock w)))
                 (recorded host (id tui) first
                    (set_clock (S (clock w)) w1)))
        end
    end.
Proof.
  unfold launch_try, mbind, M_bind, bind.
  rewrite settle_terminal_run, chosen_terminal_truthy.
  destruct (chosen_terminal host options) as [term|]; [|reflexivity].
  rewrite buildLaunchCommand_cons.
  fold (spawn_call host tui options term).
  unfold spawn.
  destruct (os_spawn host (spawn_call host tui options term)) as [e|events];
    [reflexivity|].
  destruct (default false (waitForExit options)); [reflexivity|].
  cbn [negb]. unfold date_now at 1.
  assert (Hclock : clock (log_spawn (spawn_call host tui options term)
                            (after_detect host options w)) = clock w).
  { unfold after_detect.
    destruct (string_or_absent (terminal options)); reflexivity. }
  rewrite Hclock. rewrite recordLaunch_val.
  unfold date_now.
  destruct (recorded_frame host (id tui)
              (mkLaunchResult true None (Some (now host (clock w) - startTime))
                 None)
              (set_clock (S (clock w))
                 (log_spawn (spawn_call host tui options term)
                    (after_detect host options w)))) as (Hc & _ & _).
  rewrite Hc. reflexivity.
Qed.

Lemma listener_run host tui startTime ev w :
  listener host tui startTime ev w
  = (Val (event_result startTime (now host (clock w)) ev),
     recorded host (id tui) (event_result startTime (now host (clock w)) ev)
       (set_clock (S (clock w)) w)).
Proof.
  destruct ev as [code|message]; simpl;
    unfold on_exit, on_error, mbind, M_bind, bind, date_now;
    rewrite recordLaunch_val; reflexivity.
Qed.

Lemma deliver_run host tui startTime events settled w :
  exists w',
    deliver (listener host tui startTime) events settled w
    = (Val (match settled, events with
            | Some r, _ => Some r
            | None, [] => None
            | None, ev :: _ =>
                Some (event_result startTime (now host (clock w)) ev)
            end), w')
    /\ probes w' = probes w /\ spawns w' = spawns w.
Proof.
  revert settled w. induction events as [|ev rest IH]; intros settled w.
  - exists w. destruct settled; repeat split.
  - simpl. unfold mbind, M_bind, bind. rewrite listener_run.
    set (r := event_result startTime (now host (clock w)) ev).
    set (w1 := recorded host (id tui) r (set_clock (S (clock w)) w)).
    destruct (IH (match settled with Some r0 => Some r0 | None => Some r end)
                w1) as (w' & Hrun & Hp & Hs).
    exists w'. rewrite Hrun.
    destruct (recorded_frame host (id tui) r (set_clock (S (clock w)) w))
      as (_ & Hp1 & Hs1).
    fold w1 in Hp1, Hs1. rewrite Hp, Hs, Hp1, Hs1.
    destruct settled; repeat split.
Qed.

Lemma launch_body_run host tui options w :
  launch_body host tui options w
  = let startTime := now host (clock w) in
    let w0 := set_clock (S (clock w)) w in
    match launch_try host tui options startTime w0 with
    | (Val step, w1) => (Val step, w1)
    | (Raise e, w1) =>
        (Val (Return (mkLaunchResult false None
                        (Some (now host (clock w1) - startTime))
                        (Some (error_text e)))),
         set_clock (S (clock w1)) w1)
    end.
Proof.
  unfold launch_body, mbind, M_bind, bind, date_now, try_catch. cbn zeta.
  destruct (launch_try host tui options (now host (clock w))
              (set_clock (S (clock w)) w)) as [[step|e] w1]; reflexivity.
Qed.

Lemma after_detect_frame host options w :
  clock (after_detect host options w) = clock w
  /\ store (after_detect host options w) = store w
  /\ spawns (after_detect host options w) = spawns w
  /\ console (after_detect host options w) = console w.
Proof.
  unfold after_detect.
  destruct (string_or_absent (terminal options)); repeat split.
Qed.

(** The settlement of [launch] is [outcome] at the clock reading the call
    starts with; in particular the call neither rejects nor lets an
    exception escape. *)
Lemma launch_outcome host tui options w :
  exists w',
    launch host tui options w = (Val (outcome host tui options (clock w)), w').
Proof.
  unfold launch, settle, outcome. rewrite launch_body_run. cbn zeta.
  rewrite launch_try_run. cbn [clock set_clock].
  destruct (chosen_terminal host options) as [term|]; [|eexists; reflexivity].
  cbn zeta.
  destruct (os_spawn host (spawn_call host tui options term)) as [e|events].
  - unfold log_spawn. cbn [clock].
    destruct (after_detect_frame host options
                (set_clock (S (clock w)) w)) as (-> & _).
    eexists; reflexivity.
  - destruct (default false (waitForExit options)); [|eexists; reflexivity].
    unfold mbind, M_bind, bind.
    destruct (deliver_run host tui (now host (clock w)) events None
                (log_spawn (spawn_call host tui options term)
                   (after_detect host options (set_clock (S (clock w)) w))))
      as (w' & -> & _).
    unfold log_spawn. cbn [clock].
    destruct (after_detect_frame host options
                (set_clock (S (clock w)) w)) as (-> & _).
    cbn [clock set_clock].
    destruct events; eexists; reflexivity.
Qed.

(** The calls of [child_process.spawn] a call of [launch] makes: none when
    no terminal is settled on, one otherwise. *)
Lemma launch_spawns host tui options w :
  spawns (launch host tui options w).2
  = spawns w
    ++ match chosen_terminal host options with
       | None => []
       | Some term => [spawn_call host tui options term]
       end.
Proof.
  unfold launch, settle. rewrite launch_body_run. cbn zeta.
  rewrite launch_try_run.
  destruct (after_detect_frame host options
              (set_clock (S (clock w)) w)) as (_ & _ & Hs & _).
  destruct (chosen_terminal host options) as [term|].
  - cbn zeta.
    destruct (os_spawn host (spawn_call host tui options term)) as [e|events].
    + cbn. rewrite Hs. reflexivity.
    + destruct (default false (waitForExit options)).
      * unfold mbind, M_bind, bind.
        destruct (deliver_run host tui (now host (clock w)) events None
                (log_spawn (spawn_call host tui options term)
                   (after_detect host options (set_clock (S (clock w)) w))))
          as (w' & -> & _ & Hs').
        cbn. rewrite Hs'. cbn. rewrite Hs. reflexivity.
      * cbn [snd set_clock spawns].
        match goal with |- context [recorded ?h ?i ?r ?x] =>
          destruct (recorded_frame h i r x) as (_ & _ & ->) end.
        cbn. rewrite Hs. reflexivity.
  - cbn. rewrite Hs, app_nil_r. reflexivity.
Qed.

(** With no terminal to settle on, [launch] returns from the guard after
    the detector ran: the clock was read once and nothing else happened. *)
Lemma launch_no_terminal_run host tui options w :
  chosen_terminal host options = None ->
  launch host tui options w
  = (Val (Resolved (mkLaunchResult false None None (Some no_terminal_message))),
     after_detect host options (set_clock (S (clock w)) w)).
Proof.
  intros Hnone. unfold launch, settle. rewrite launch_body_run. cbn zeta.
  rewrite launch_try_run, Hnone. reflexivity.
Qed.

Lemma detector_finds_nothing host :
  (forall w, (detectTerminal host w).1 = Val None) ->
  find (resolves host) terminals = None.
Proof.
  intros Hnone. specialize (Hnone fresh).
  unfold detectTerminal in Hnone. rewrite detect_from_run in Hnone.
  cbn [fst] in Hnone. congruence.
Qed.

Lemma chosen_terminal_none host options :
  terminal options = None ->
  (forall w, (detectTerminal host w).1 = Val None) ->
  chosen_terminal host options = None.
Proof.
  intros Hopt Hnone. unfold chosen_terminal. rewrite Hopt. simpl.
  apply detector_finds_nothing, Hnone.
Qed.

(** ** The launcher *)

(** C5: when [options.terminal] is not supplied and the detector finds no
    candidate, [launch] resolves with [success = false] and a non-empty
    error string right after detection, and [child_process.spawn] is not
    called. *)
Theorem launch_without_terminal host tui options w :
  terminal options = None ->
  (forall w0, (detectTerminal host w0).1 = Val None) ->
  exists r w',
    launch host tui options w = (Val (Resolved r), w')
    /\ success r = false
    /\ (exists message, error r = Some message /\ message <> "")
    /\ spawns w' = spawns w
    /\ clock w' = S (clock w).
Proof.
  intros Hopt Hnone.
  pose proof (chosen_terminal_none host options Hopt Hnone) as Hchosen.
  eexists _, _. split; [apply launch_no_terminal_run, Hchosen|].
  destruct (after_detect_frame host options (set_clock (S (clock w)) w))
    as (Hc & _ & Hs & _).
  repeat split; [|exact Hs|exact Hc].
  exists no_terminal_message. split; [reflexivity|discriminate].
Qed.

Lemma launch_without_terminal_bare :
  exists r w',
    launch bare_host htop detached fresh = (Val (Resolved r), w')
    /\ success r = false
    /\ (exists message, error r = Some message /\ message <> "")
    /\ spawns w' = spawns fresh
    /\ clock w' = S (clock fresh).
Proof.
  apply (launch_without_terminal bare_host htop detached fresh).
  - reflexivity.
  - intros w0. reflexivity.
Defined.

(** C1, on the path where no terminal is found: [launch] returns its one
    outcome from the guard without calling [recordLaunch], so the store is
    left as it was: no [launch_history] row is appended and the target's
    launch counter and last-launched timestamp are not touched. *)
Theorem launch_without_terminal_records_nothing host tui options w :
  terminal options = None ->
  (forall w0, (detectTerminal host w0).1 = Val None) ->
  exists r w',
    launch host tui options w = (Val (Resolved r), w')
    /\ launch_history (store w') = launch_history (store w)
    /\ tuis (store w') = tuis (store w)
    /\ console w' = console w.
Proof.
  intros Hopt Hnone.
  pose proof (chosen_terminal_none host options Hopt Hnone) as Hchosen.
  eexists _, _. split; [apply launch_no_terminal_run, Hchosen|].
  destruct (after_detect_frame host options (set_clock (S (clock w)) w))
    as (_ & Hst & _ & Hcon).
  rewrite Hst, Hcon. repeat split.
Qed.

Lemma launch_without_terminal_records_nothing_bare :
  exists r w',
    launch bare_host htop detached fresh = (Val (Resolved r), w')
    /\ launch_history (store w') = []
    /\ tuis (store w') = {[ 1 := htop ]}
    /\ console w' = [].
Proof.
  apply (launch_without_terminal_records_nothing bare_host htop detached fresh).
  - reflexivity.
  - intros w0. reflexivity.
Defined.

(** C3, on the path where no terminal is found: the outcome [launch]
    returns from the guard has no [duration], although the start time was
    read. *)
Theorem launch_without_terminal_has_no_duration host tui options w :
  terminal options = None ->
  (forall w0, (detectTerminal host w0).1 = Val None) ->
  exists r w',
    launch host tui options w = (Val (Resolved r), w')
    /\ duration r = None
    /\ clock w' = S (clock w).
Proof.
  intros Hopt Hnone.
  pose proof (chosen_terminal_none host options Hopt Hnone) as Hchosen.
  eexists _, _. split; [apply launch_no_terminal_run, Hchosen|].
  destruct (after_detect_frame host options (set_clock (S (clock w)) w))
    as (Hc & _).
  split; [reflexivity|exact Hc].
Qed.

Lemma launch_without_terminal_has_no_duration_bare :
  exists r w',
    launch bare_host htop detached fresh = (Val (Resolved r), w')
    /\ duration r = None
    /\ clock w' = 1%nat.
Proof.
  apply (launch_without_terminal_has_no_duration bare_host htop detached fresh).
  - reflexivity.
  - intros w0. reflexivity.
Defined.

Lemma exit_code_zero code :
  bool_decide (Some code = Some 0) = (code =? 0).
Proof.
  destruct (Z.eqb_spec code 0) as [->|Hne].
  - apply bool_decide_eq_true_2. reflexivity.
  - apply bool_decide_eq_false_2. congruence.
Qed.

(** C2, as the code has it: an attached launch whose child exits with
    [code] resolves with [success] exactly when [code] is 0, no error
    string, and [exitCode: code || undefined].  For exit code 1 that is
    [{success: false, exitCode: 1}]; for exit code 0 the outcome is
    [{success: true}] with [exitCode] absent, where [exitCode: 0] was to
    be expected. *)
Theorem launch_attached_exit_code host tui options w term code rest :
  waitForExit options = Some true ->
  chosen_terminal host options = Some term ->
  os_spawn host (spawn_call host tui options term)
  = Spawned (Exit (Some code) :: rest) ->
  exists w',
    launch host tui options w
    = (Val (Resolved
              (mkLaunchResult (code =? 0)
                 (if code =? 0 then None else Some code)
                 (Some (now host (S (clock w)) - now host (clock w)))
                 None)), w').
Proof.
  intros Hwait Hterm Hspawn.
  destruct (launch_outcome host tui options w) as (w' & Hrun).
  exists w'. rewrite Hrun. unfold outcome.
  rewrite Hterm, Hspawn, Hwait. cbn [default event_result number_or_absent].
  rewrite exit_code_zero. reflexivity.
Qed.

Lemma launch_attached_exit_zero :
  exists w',
    launch (kitty_host [Exit (Some 0)]) htop attached fresh
    = (Val (Resolved (mkLaunchResult true None (Some 7) None)), w').
Proof.
  apply (launch_attached_exit_code (kitty_host [Exit (Some 0)]) htop attached
           fresh "kitty" 0 []); reflexivity.
Defined.

Example launch_attached_exit_one :
  (launch (kitty_host [Exit (Some 1)]) htop attached fresh).1
  = Val (Resolved (mkLaunchResult false (Some 1) (Some 7) None)).
Proof. reflexivity. Qed.



(** ** What the other paths record *)

(** On an open store that holds the target's row, [recordLaunch] appends
    one [launch_history] row and touches the one [tuis] row: the counter
    goes up by one and the timestamp is set. *)
Lemma recordLaunch_appends_once host t row result w :
  closed (store w) = false ->
  tuis (store w) !! t = Some row ->
  let ts := current_timestamp host (clock w) in
  let w' := recorded host (Some t) result w in
  launch_history (store w')
  = launch_history (store w)
    ++ [mkLaunchHistory (history_seq (store w) + 1) t ts
          (number_or_absent (exitCode result))
          (number_or_absent (duration result))
          (string_or_absent (error result))]
  /\ tuis (store w') !! t
     = Some (mkTUI (id row) (name row) (command row) (Some ts)
               (launch_count row + 1))
  /\ (forall t', t' <> t -> tuis (store w') !! t' = tuis (store w) !! t')
  /\ console w' = console w.
Proof.
  intros Hopen Hrow ts w'. subst w'. unfold recorded.
  rewrite recordLaunch_run.
  rewrite (addLaunchHistory_run _ t row _ _ _ _ Hopen Hrow).
  cbn [snd set_store store launch_history tuis console].
  split; [reflexivity|]. split.
  - rewrite lookup_alter_eq, Hrow. reflexivity.
  - split; [|reflexivity].
    intros t' Hne. apply lookup_alter_ne. congruence.
Qed.

(** Outside the no-terminal guard every outcome carries a duration: a
    later clock reading minus the reading at the start of the call. *)
Lemma launch_duration_present host tui options w term r w' :
  chosen_terminal host options = Some term ->
  launch host tui options w = (Val (Resolved r), w') ->
  duration r = Some (now host (S (clock w)) - now host (clock w))
  \/ duration r = Some (now host (S (S (clock w))) - now host (clock w)).
Proof.
  intros Hterm Hrun.
  destruct (launch_outcome host tui options w) as (w1 & Hrun1).
  rewrite Hrun1 in Hrun. injection Hrun as Hout _. revert Hout.
  unfold outcome. rewrite Hterm.
  destruct (os_spawn host (spawn_call host tui options term)) as [e|events].
  - intros [= <-]. left. reflexivity.
  - destruct (default false (waitForExit options)).
    + destruct events as [|[code|message] rest]; [discriminate| |];
        intros [= <-]; left; reflexivity.
    + intros [= <-]. right. reflexivity.
Qed.

(** A [spawn] that throws lands in the [catch] block, which returns the
    failure without recording it. *)
Example launch_spawn_throws_is_not_recorded :
  exists w',
    launch broken_host htop attached fresh
    = (Val (Resolved (mkLaunchResult false None (Some 7) (Some "spawn EPERM"))),
       w')
    /\ store w' = catalog.
Proof. eexists. split; reflexivity. Qed.

(** An ['error'] event of an attached child is recorded by its listener. *)
Example launch_error_event_is_recorded :
  exists w',
    launch (kitty_host [Error "spawn kitty ENOENT"]) htop attached fresh
    = (Val (Resolved (mkLaunchResult false None (Some 7)
                        (Some "spawn kitty ENOENT"))), w')
    /\ launch_history (store w')
       = [mkLaunchHistory 1 1 52 None (Some 7) (Some "spawn kitty ENOENT")]
    /\ launch_count <$> tuis (store w') !! 1 = Some 1.
Proof. eexists. split; [reflexivity|]. split; vm_compute; reflexivity. Qed.

(** A child that emits ['error'] and then ['exit'] is recorded twice, the
    promise being settled by the first of the two. *)
Example launch_two_events_are_recorded_twice :
  exists w',
    launch (kitty_host [Error "EPIPE"; Exit (Some 1)]) htop attached fresh
    = (Val (Resolved (mkLaunchResult false None (Some 7) (Some "EPIPE"))), w')
    /\ length (launch_history (store w')) = 2%nat
    /\ launch_count <$> tuis (store w') !! 1 = Some 2.
Proof. eexists. split; [reflexivity|]. split; vm_compute; reflexivity. Qed.

(** With the store closed the outcome is the same and the failure to record
    goes to the console. *)
Example launch_with_closed_store :
  exists w',
    launch (kitty_host [Exit (Some 1)]) htop attached
      (set_store (mkStore true {[ 1 := htop ]} [] 0) fresh)
    = (Val (Resolved (mkLaunchResult false (Some 1) (Some 7) None)), w')
    /\ console w'
       = ["Failed to record launch: Cannot use a closed database"]
    /\ launch_history (store w') = [].
Proof. eexists. split; [reflexivity|]. split; reflexivity. Qed.

(** An attached child that has emitted nothing yet leaves the promise
    pending. *)
Example launch_attached_silent_child :
  (launch (kitty_host []) htop attached fresh).1 = Val Pending.
Proof. reflexivity. Qed.

(** An entry with exit code 0, duration 0 and an empty message is stored
    with all three columns NULL. *)
Example addLaunchHistory_all_falsy :
  launch_history
    (addLaunchHistory 52 (mkHistoryEntry (Some 1) (Some 0) (Some 0) (Some ""))
       catalog).2
  = [mkLaunchHistory 1 1 52 None None None].
Proof. reflexivity. Qed.

(** ** Reading the history back *)

#[local] Instance newer_entry_total : Total newer_entry.
Proof. intros a b. unfold newer_entry. lia. Qed.

#[local] Instance newer_entry_trans : Transitive newer_entry.
Proof. intros a b c. unfold newer_entry. lia. Qed.

#[local] Instance launched_later_total : Total launched_later.
Proof.
  intros a b. unfold launched_later, null_le.
  destruct (last_launched_at a), (last_launched_at b); try tauto. lia.
Qed.

#[local] Instance launched_later_trans : Transitive launched_later.
Proof.
  intros a b c. unfold launched_later, null_le.
  destruct (last_launched_at a), (last_launched_at b), (last_launched_at c);
    try tauto. lia.
Qed.

Lemma sql_limit_split {A} limit (rows : list A) :
  exists rest,
    rows = sql_limit limit rows ++ rest
    /\ (limit < 0 -> rest = [])
    /\ length (sql_limit limit rows)
       = if limit <? 0 then length rows
         else Nat.min (Z.to_nat limit) (length rows).
Proof.
  unfold sql_limit. destruct (Z.ltb_spec limit 0) as [Hneg|Hpos].
  - exists []. rewrite app_nil_r. repeat split.
  - exists (drop (Z.to_nat limit) rows). rewrite take_drop, length_take.
    repeat split. lia.
Qed.

(** What a sorted and limited selection returns: rows of the selection,
    in order, as many as the limit allows, and none older left in while a
    newer one is left out. *)
Lemma sorted_limit_spec {A} (R : relation A) `{!RelDecision R}
    `{!Total R} `{!Transitive R} limit (selection : list A) :
  let rows := sql_limit limit (merge_sort R selection) in
  (forall r, r ∈ rows -> r ∈ selection)
  /\ StronglySorted R rows
  /\ length rows
     = (if limit <? 0 then length selection
        else Nat.min (Z.to_nat limit) (length selection))
  /\ (forall r r', r ∈ selection -> r ∉ rows -> r' ∈ rows -> R r' r)
  /\ (limit < 0 -> forall r, r ∈ selection -> r ∈ rows).
Proof.
  intros rows. subst rows.
  pose proof (merge_sort_Permutation R selection) as Hperm.
  pose proof (StronglySorted_merge_sort R selection) as Hsorted.
  destruct (sql_limit_split limit (merge_sort R selection))
    as (rest & Hsplit & Hall & Hlen).
  set (rows := sql_limit limit (merge_sort R selection)) in *.
  rewrite Hsplit in Hsorted.
  assert (Hin : forall r, r ∈ rows -> r ∈ selection).
  { intros r Hr. rewrite <- Hperm, Hsplit. apply elem_of_app. left. exact Hr. }
  split; [exact Hin|].
  split; [exact (StronglySorted_app_1_l _ _ _ Hsorted)|].
  split; [rewrite Hlen, (Permutation_length Hperm); reflexivity|].
  split.
  - intros r r' Hr Hnot Hr'.
    rewrite <- Hperm, Hsplit in Hr. apply elem_of_app in Hr as [Hr|Hr];
      [contradiction|].
    exact (StronglySorted_app_1_elem_of _ _ _ _ _ Hsorted Hr' Hr).
  - intros Hneg r Hr. rewrite <- Hperm, Hsplit in Hr.
    rewrite (Hall Hneg), app_nil_r in Hr. exact Hr.
Qed.


(** X2: on an open database that holds the TUI's row, [addLaunchHistory]
    returns the next row id, appends one row for that TUI stamped with the
    current time, raises the TUI's [launch_count] by one and sets its
    [last_launched_at], and leaves the TUI's other columns and every other
    TUI as they were. *)
Theorem addLaunchHistory_counts_launch ts t row ec dur msg s :
  closed s = false ->
  tuis s !! t = Some row ->
  exists s',
    addLaunchHistory ts (mkHistoryEntry (Some t) ec dur msg) s
    = (Val (history_seq s + 1), s')
    /\ (exists new,
          launch_history s' = launch_history s ++ [new]
          /\ lh_id new = history_seq s + 1
          /\ lh_tui_id new = t
          /\ lh_launched_at new = ts)
    /\ (exists row',
          tuis s' !! t = Some row'
          /\ launch_count row' = launch_count row + 1
          /\ last_launched_at row' = Some ts
          /\ id row' = id row /\ name row' = name row
          /\ command row' = command row)
    /\ (forall k, k <> t -> tuis s' !! k = tuis s !! k)
    /\ closed s' = false.
Proof.
  intros Hopen Hrow. eexists.
  split; [exact (addLaunchHistory_run ts t row ec dur msg s Hopen Hrow)|].
  cbn [launch_history tuis closed]. split; [|split; [|split]].
  - eexists. split; [reflexivity|]. repeat split.
  - eexists. rewrite lookup_alter_eq, Hrow. split; [reflexivity|].
    repeat split.
  - intros k Hne. apply lookup_alter_ne. congruence.
  - reflexivity.
Qed.

Lemma addLaunchHistory_counts_launch_htop :
  exists s',
    addLaunchHistory 52 (mkHistoryEntry (Some 1) (Some 2) (Some 70) None)
      catalog
    = (Val 1, s')
    /\ (exists new,
          launch_history s' = [] ++ [new]
          /\ lh_id new = 1 /\ lh_tui_id new = 1 /\ lh_launched_at new = 52)
    /\ (exists row',
          tuis s' !! 1 = Some row'
          /\ launch_count row' = 1
          /\ last_launched_at row' = Some 52
          /\ id row' = Some 1 /\ name row' = "htop"
          /\ command row' = "htop")
    /\ (forall k, k <> 1 -> tuis s' !! k = tuis catalog !! k)
    /\ closed s' = false.
Proof.
  apply (addLaunchHistory_counts_launch 52 1 htop (Some 2) (Some 70) None
           catalog); reflexivity.
Defined.

(** X3: [addLaunchHistory] throws exactly when the database is closed, the
    entry has no [tui_id], or no TUI has that id; it then leaves the store
    as it was, so no counter moves without a history row.  Otherwise it
    returns the AUTOINCREMENT counter plus one. *)
Theorem addLaunchHistory_throws_or_inserts ts history s :
  match addLaunchHistory ts history s with
  | (Raise _, s') =>
      s' = s
      /\ (closed s = true \/ tui_id history = None
          \/ exists t, tui_id history = Some t /\ tuis s !! t = None)
  | (Val rowid, s') =>
      closed s = false
      /\ rowid = history_seq s + 1
      /\ history_seq s' = rowid
      /\ exists t, tui_id history = Some t /\ is_Some (tuis s !! t)
  end.
Proof.
  unfold addLaunchHistory, insert_history.
  destruct (closed s); [split; [reflexivity|left; reflexivity]|].
  destruct (tui_id history) as [t|];
    [|split; [reflexivity|right; left; reflexivity]].
  destruct (tuis s !! t) as [row|] eqn:Hrow.
  - repeat split. exists t. split; [reflexivity|]. rewrite Hrow. eauto.
  - split; [reflexivity|]. right; right. exists t. split; [reflexivity|exact Hrow].
Qed.

Lemma merge_sort_head_newest (new : LaunchHistory) (old : list LaunchHistory) :
  Forall (fun r => lh_launched_at r < lh_launched_at new) old ->
  exists rest, merge_sort newer_entry (old ++ [new]) = new :: rest.
Proof.
  intros Hold.
  pose proof (merge_sort_Permutation newer_entry (old ++ [new])) as Hperm.
  pose proof (StronglySorted_merge_sort newer_entry (old ++ [new])) as Hsorted.
  destruct (merge_sort newer_entry (old ++ [new])) as [|x rest] eqn:Hsort.
  - symmetry in Hperm. apply Permutation_nil_r in Hperm.
    destruct old; discriminate Hperm.
  - exists rest. f_equal.
    assert (Hx : x ∈ old ++ [new]) by (rewrite <- Hperm; left).
    assert (Hnew : new ∈ x :: rest).
    { rewrite Hperm. apply elem_of_app. right. left. }
    apply elem_of_app in Hx as [Hx|Hx];
      [|apply list_elem_of_singleton in Hx; exact Hx].
    rewrite Forall_forall in Hold. specialize (Hold x Hx).
    apply elem_of_cons in Hnew as [Heq|Hnew]; [symmetry; exact Heq|].
    apply StronglySorted_inv in Hsorted as [_ Hall].
    rewrite Forall_forall in Hall. specialize (Hall new Hnew).
    unfold newer_entry in Hall. lia.
Qed.

Lemma getLaunchHistory_head_after_add ts t row ec dur msg s limit :
  closed s = false ->
  tuis s !! t = Some row ->
  Forall (fun r => lh_tui_id r = t -> lh_launched_at r < ts)
    (launch_history s) ->
  limit <> 0 ->
  exists rest,
    getLaunchHistory t limit
      (addLaunchHistory ts (mkHistoryEntry (Some t) ec dur msg) s).2
    = Val (mkLaunchHistory (history_seq s + 1) t ts (number_or_absent ec)
             (number_or_absent dur) (string_or_absent msg) :: rest).
Proof.
  intros Hopen Hrow Hold Hlimit.
  rewrite (addLaunchHistory_run _ t row _ _ _ _ Hopen Hrow).
  unfold getLaunchHistory. cbn [snd closed launch_history].
  rewrite filter_app.
  set (new := mkLaunchHistory (history_seq s + 1) t ts (number_or_absent ec)
                (number_or_absent dur) (string_or_absent msg)).
  assert (Hfnew : filter (fun r => lh_tui_id r = t) [new] = [new]).
  { rewrite filter_cons. destruct (decide (lh_tui_id new = t)) as [_|Hne];
      [reflexivity|]. exfalso; apply Hne; reflexivity. }
  rewrite Hfnew.
  destruct (merge_sort_head_newest new
              (filter (fun r => lh_tui_id r = t) (launch_history s)))
    as (rest & ->).
  { apply Forall_forall. intros r Hr.
    apply list_elem_of_filter in Hr as [Hid Hr].
    rewrite Forall_forall in Hold. exact (Hold r Hr Hid). }
  unfold sql_limit. destruct (Z.ltb_spec limit 0) as [Hneg|Hpos].
  - exists rest. reflexivity.
  - destruct (Z.to_nat limit) as [|n] eqn:Hn; [lia|].
    exists (take n rest). reflexivity.
Qed.

(** X4: when a launch is recorded with a timestamp later than those of the
    TUI's earlier history rows, [getLaunchHistory] for that TUI returns the
    new row first, for every limit but 0. *)
Theorem getLaunchHistory_after_add ts t row ec dur msg s limit :
  closed s = false ->
  tuis s !! t = Some row ->
  Forall (fun r => lh_tui_id r = t -> lh_launched_at r < ts)
    (launch_history s) ->
  limit <> 0 ->
  exists rest,
    getLaunchHistory t limit
      (addLaunchHistory ts (mkHistoryEntry (Some t) ec dur msg) s).2
    = Val (mkLaunchHistory (history_seq s + 1) t ts (number_or_absent ec)
             (number_or_absent dur) (string_or_absent msg) :: rest).
Proof.
  intros Hopen Hrow Hold Hlimit.
  exact (getLaunchHistory_head_after_add ts t row ec dur msg s limit
           Hopen Hrow Hold Hlimit).
Qed.

Lemma getLaunchHistory_after_add_seasoned :
  exists rest,
    getLaunchHistory 1 2
      (addLaunchHistory 52 (mkHistoryEntry (Some 1) (Some 2) (Some 70) None)
         seasoned).2
    = Val (mkLaunchHistory 4 1 52 (Some 2) (Some 70) None :: rest).
Proof.
  apply (getLaunchHistory_after_add 52 1 veteran (Some 2) (Some 70) None
           seasoned 2).
  - reflexivity.
  - reflexivity.
  - repeat constructor; cbn; intros; lia.
  - discriminate.
Defined.

Example getLaunchHistory_after_add_on_seasoned :
  getLaunchHistory 1 2
    (addLaunchHistory 52 (mkHistoryEntry (Some 1) (Some 2) (Some 70) None)
       seasoned).2
  = Val [mkLaunchHistory 4 1 52 (Some 2) (Some 70) None;
         mkLaunchHistory 3 1 30 None None (Some "spawn EPERM")].
Proof. vm_compute. reflexivity. Qed.

(** X5: [getRecentlyLaunchedTUIs] throws on a closed database and otherwise
    returns rows of [tuis] that have been launched, latest first, at most
    [limit] of them; a TUI that was never launched is never listed, and
    with a negative limit every launched TUI is. *)
Theorem getRecentlyLaunchedTUIs_launched_only limit s :
  match getRecentlyLaunchedTUIs limit s with
  | Raise _ => closed s = true
  | Val rows =>
      closed s = false
      /\ (forall t, t ∈ rows ->
            is_Some (last_launched_at t) /\ exists k, tuis s !! k = Some t)
      /\ StronglySorted launched_later rows
      /\ (0 ≤ limit -> (length rows ≤ Z.to_nat limit)%nat)
      /\ (limit < 0 ->
          forall k t, tuis s !! k = Some t -> is_Some (last_launched_at t) ->
                      t ∈ rows)
  end.
Proof.
  unfold getRecentlyLaunchedTUIs. destruct (closed s); [reflexivity|].
  destruct (sorted_limit_spec launched_later limit
              (filter (fun t => last_launched_at t <> None)
                 (map_to_list (tuis s)).*2))
    as (Hin & Hsorted & Hlen & _ & Hall).
  split; [reflexivity|]. split; [|split; [exact Hsorted|split]].
  - intros t Ht. apply Hin, list_elem_of_filter in Ht as [Hsome Ht].
    split; [destruct (last_launched_at t); [eauto|congruence]|].
    apply list_elem_of_fmap in Ht as ([k t'] & -> & Hkt).
    exists k. apply elem_of_map_to_list in Hkt. exact Hkt.
  - intros Hpos. rewrite Hlen.
    destruct (Z.ltb_spec limit 0); lia.
  - intros Hneg k t Hkt [ts Hts]. apply (Hall Hneg).
    apply list_elem_of_filter. split; [congruence|].
    apply list_elem_of_fmap. exists (k, t). split; [reflexivity|].
    apply elem_of_map_to_list. exact Hkt.
Qed.

(** X6: [deleteTUI] throws on a closed database; otherwise it tells
    whether the row existed.  Afterwards the TUI is gone and no history
    row references it; every other TUI, the history rows of every other
    TUI, in their order, and the AUTOINCREMENT counter are untouched; and
    when the row did not exist the store is left as it was. *)
Theorem deleteTUI_cascades tid s :
  match deleteTUI tid s with
  | (Raise _, s') => closed s = true /\ s' = s
  | (Val existed, s') =>
      closed s = false
      /\ existed = bool_decide (is_Some (tuis s !! tid))
      /\ (existed = false -> s' = s)
      /\ tuis s' !! tid = None
      /\ (forall k, k <> tid -> tuis s' !! k = tuis s !! k)
      /\ (existed = true ->
          Forall (fun r => lh_tui_id r <> tid) (launch_history s'))
      /\ (forall k, k <> tid ->
            filter (fun r => lh_tui_id r = k) (launch_history s')
            = filter (fun r => lh_tui_id r = k) (launch_history s))
      /\ history_seq s' = history_seq s
  end.
Proof.
  unfold deleteTUI. destruct (closed s); [split; reflexivity|].
  destruct (tuis s !! tid) as [row|] eqn:Hrow.
  - cbn [tuis launch_history history_seq].
    split; [reflexivity|]. split.
    { symmetry. apply bool_decide_eq_true_2. eauto. }
    split; [discriminate|]. split; [apply lookup_delete_eq|].
    split; [intros k Hne; apply lookup_delete_ne; congruence|].
    split.
    { intros _. apply Forall_forall. intros r Hr.
      apply list_elem_of_filter in Hr. tauto. }
    split; [|reflexivity].
    intros k Hne. rewrite list_filter_filter.
    apply list_filter_iff. intros r. split; [tauto|].
    intros Hk. split; [exact Hk|congruence].
  - split; [reflexivity|]. split.
    { symmetry. apply bool_decide_eq_false_2. intros [? ?]. discriminate. }
    repeat split; [exact Hrow|discriminate].
Qed.

(** ** Consistency of the store *)

Lemma consistent_addLaunchHistory ts history s :
  consistent s -> consistent (addLaunchHistory ts history s).2.
Proof.
  intros (Hrefs & Hids & Hdup).
  destruct (addLaunchHistory ts history s) as [[rowid|e] s'] eqn:Hadd;
    [|apply addLaunchHistory_raise in Hadd as ->; repeat split; assumption].
  revert Hadd. unfold addLaunchHistory, insert_history.
  destruct (closed s); [discriminate|].
  destruct (tui_id history) as [t|]; [|discriminate].
  destruct (tuis s !! t) as [row|] eqn:Hrow; [|discriminate].
  intros [= <- <-]. unfold consistent, update_launched.
  cbn [snd tuis launch_history history_seq lh_tui_id lh_id].
  split; [|split].
  - apply Forall_app. split.
    + eapply Forall_impl; [exact Hrefs|]. intros r [x Hx]. cbn beta in *.
      destruct (decide (lh_tui_id r = t)) as [->|Hne].
      * rewrite lookup_alter_eq, Hrow. eauto.
      * rewrite lookup_alter_ne by congruence. eauto.
    + repeat constructor. cbn. rewrite lookup_alter_eq, Hrow. eauto.
  - apply Forall_app. split.
    + eapply Forall_impl; [exact Hids|]. intros r Hr. cbn beta in *. lia.
    + repeat constructor. cbn. lia.
  - rewrite fmap_app. apply NoDup_app. split; [exact Hdup|]. split.
    + intros x Hx Hin. apply list_elem_of_singleton in Hin. cbn in Hin.
      apply list_elem_of_fmap in Hx as (r & -> & Hr).
      rewrite Forall_forall in Hids. specialize (Hids r Hr). lia.
    + apply NoDup_singleton.
Qed.

Lemma consistent_deleteTUI tid s :
  consistent s -> consistent (deleteTUI tid s).2.
Proof.
  intros (Hrefs & Hids & Hdup). unfold deleteTUI.
  destruct (closed s); [repeat split; assumption|].
  destruct (tuis s !! tid) as [row|]; [|repeat split; assumption].
  unfold consistent. cbn [snd tuis launch_history history_seq].
  split; [|split].
  - apply Forall_forall. intros r Hr.
    apply list_elem_of_filter in Hr as [Hne Hr].
    rewrite Forall_forall in Hrefs. specialize (Hrefs r Hr).
    rewrite lookup_delete_ne by congruence. exact Hrefs.
  - apply Forall_forall. intros r Hr.
    apply list_elem_of_filter in Hr as [_ Hr].
    rewrite Forall_forall in Hids. exact (Hids r Hr).
  - eapply sublist_NoDup; [exact Hdup|].
    apply fmap_sublist, sublist_filter.
Qed.

Lemma recorded_store host tuiId result w :
  store (recorded host tuiId result w)
  = (addLaunchHistory (current_timestamp host (clock w))
       (mkHistoryEntry tuiId (exitCode result) (duration result)
          (error result)) (store w)).2.
Proof.
  unfold recorded. rewrite recordLaunch_run.
  destruct (addLaunchHistory _ _ (store w)) as [[rowid|e] s'] eqn:Hadd.
  - reflexivity.
  - apply addLaunchHistory_raise in Hadd as ->. reflexivity.
Qed.

Section StoreInvariant.

Context (P : Store -> Prop).
Hypothesis P_addLaunchHistory :
  forall ts history s, P s -> P (addLaunchHistory ts history s).2.

Lemma recorded_invariant host tuiId result w :
  P (store w) -> P (store (recorded host tuiId result w)).
Proof. intros HP. rewrite recorded_store. apply P_addLaunchHistory, HP. Qed.

Lemma deliver_invariant host tui startTime events settled w :
  P (store w) ->
  P (store (deliver (listener host tui startTime) events settled w).2).
Proof.
  revert settled w. induction events as [|ev rest IH]; intros settled w HP.
  - exact HP.
  - simpl. unfold mbind, M_bind, bind. rewrite listener_run.
    apply IH, recorded_invariant. exact HP.
Qed.

(** [launch] writes to the store through [addLaunchHistory] only. *)
Lemma launch_invariant host tui options w :
  P (store w) -> P (store (launch host tui options w).2).
Proof.
  intros HP. unfold launch, settle. rewrite launch_body_run. cbn zeta.
  rewrite launch_try_run.
  destruct (after_detect_frame host options
              (set_clock (S (clock w)) w)) as (_ & Hst & _ & _).
  cbn [store set_clock] in Hst.
  destruct (chosen_terminal host options) as [term|];
    [|cbn; rewrite Hst; exact HP].
  cbn zeta.
  destruct (os_spawn host (spawn_call host tui options term)) as [e|events];
    [cbn; rewrite Hst; exact HP|].
  destruct (default false (waitForExit options)).
  - unfold mbind, M_bind, bind.
    pose proof (deliver_invariant host tui (now host (clock w)) events None
                  (log_spawn (spawn_call host tui options term)
                     (after_detect host options (set_clock (S (clock w)) w))))
      as Hd.
    destruct (deliver _ _ _ _) as [[settled|e] w'].
    + cbn. apply Hd. cbn. rewrite Hst. exact HP.
    + cbn. apply Hd. cbn. rewrite Hst. exact HP.
  - cbn [snd set_clock store]. apply recorded_invariant.
    cbn. rewrite Hst. exact HP.
Qed.

End StoreInvariant.

Lemma consistent_catalog : consistent catalog.
Proof. repeat split; constructor. Qed.

Lemma consistent_seasoned : consistent seasoned.
Proof.
  split; [|split].
  - repeat (constructor; [eexists; reflexivity|]). constructor.
  - repeat (constructor; [cbn; lia|]). constructor.
  - apply (bool_decide_unpack _). vm_compute. reflexivity.
Qed.

(** X7: a store in which every history row references an existing TUI and
    row ids are distinct and bounded by the AUTOINCREMENT counter stays so
    under [addLaunchHistory], under [deleteTUI] and under a whole call of
    [launch], whatever the host does. *)
Theorem store_stays_consistent s :
  consistent s ->
  (forall ts history, consistent (addLaunchHistory ts history s).2)
  /\ (forall tid, consistent (deleteTUI tid s).2)
  /\ (forall host tui options w,
        store w = s -> consistent (store (launch host tui options w).2)).
Proof.
  intros Hs. split; [|split].
  - intros. apply consistent_addLaunchHistory, Hs.
  - intros. apply consistent_deleteTUI, Hs.
  - intros host tui options w <-.
    apply (launch_invariant consistent); [|exact Hs].
    intros. apply consistent_addLaunchHistory. assumption.
Qed.

Lemma store_stays_consistent_seasoned :
  consistent seasoned
  /\ (forall ts history, consistent (addLaunchHistory ts history seasoned).2)
  /\ (forall tid, consistent (deleteTUI tid seasoned).2)
  /\ (forall host tui options w,
        store w = seasoned ->
        consistent (store (launch host tui options w).2)).
Proof.
  split; [exact consistent_seasoned|].
  exact (store_stays_consistent seasoned consistent_seasoned).
Defined.

Example deleteTUI_on_seasoned :
  launch_history (deleteTUI 1 seasoned).2
  = [mkLaunchHistory 2 2 40 (Some 1) (Some 9) None].
Proof. vm_compute. reflexivity. Qed.

(** ** What a launch leaves in the store *)

Lemma launch_detached_run host tui options w term events :
  default false (waitForExit options) = false ->
  chosen_terminal host options = Some term ->
  os_spawn host (spawn_call host tui options term) = Spawned events ->
  let k := clock w in
  let startTime := now host k in
  launch host tui options w
  = (Val (Resolved (mkLaunchResult true None
                      (Some (now host (S (S k)) - startTime)) None)),
     set_clock (S (S (S k)))
       (recorded host (id tui)
          (mkLaunchResult true None (Some (now host (S k) - startTime)) None)
          (set_clock (S (S k))
             (log_spawn (spawn_call host tui options term)
                (after_detect host options (set_clock (S k) w)))))).
Proof.
  intros Hwait Hterm Hspawn k startTime. subst k startTime.
  unfold launch, settle. rewrite launch_body_run. cbn zeta.
  rewrite launch_try_run, Hterm. cbn zeta. rewrite Hspawn, Hwait.
  reflexivity.
Qed.

Lemma launch_attached_single_run host tui options w term ev :
  default false (waitForExit options) = true ->
  chosen_terminal host options = Some term ->
  os_spawn host (spawn_call host tui options term) = Spawned [ev] ->
  let k := clock w in
  let result := event_result (now host k) (now host (S k)) ev in
  launch host tui options w
  = (Val (Resolved result),
     recorded host (id tui) result
       (set_clock (S (S k))
          (log_spawn (spawn_call host tui options term)
             (after_detect host options (set_clock (S k) w))))).
Proof.
  intros Hwait Hterm Hspawn k result. subst k result.
  unfold launch, settle. rewrite launch_body_run. cbn zeta.
  rewrite launch_try_run, Hterm. cbn zeta. rewrite Hspawn, Hwait.
  unfold mbind, M_bind, bind. cbn [deliver].
  unfold mbind, M_bind, bind. rewrite listener_run.
  destruct (after_detect_frame host options
              (set_clock (S (clock w)) w)) as (Hc & _).
  cbn [clock log_spawn set_clock] in *. rewrite Hc. reflexivity.
Qed.




(** X8: a detached launch whose spawn returns, for a TUI whose row is in an
    open database, appends exactly one history row and raises the TUI's
    launch count by one.  The row has no exit code and no error, and its
    duration is taken from the clock reading before the one the returned
    outcome uses (and is NULL when that difference is 0). *)
Theorem launch_detached_records host tui options w term events t row :
  default false (waitForExit options) = false ->
  chosen_terminal host options = Some term ->
  os_spawn host (spawn_call host tui options term) = Spawned events ->
  id tui = Some t ->
  closed (store w) = false ->
  tuis (store w) !! t = Some row ->
  let k := clock w in
  exists w',
    launch host tui options w
    = (Val (Resolved (mkLaunchResult true None
                        (Some (now host (S (S k)) - now host k)) None)), w')
    /\ launch_history (store w')
       = launch_history (store w)
         ++ [mkLaunchHistory (history_seq (store w) + 1) t
               (current_timestamp host (S (S k))) None
               (number_or_absent (Some (now host (S k) - now host k)))
               None]
    /\ launch_count <$> tuis (store w') !! t = Some (launch_count row + 1)
    /\ last_launched_at <$> tuis (store w') !! t
       = Some (Some (current_timestamp host (S (S k)))).
Proof.
  intros Hwait Hterm Hspawn Hid Hopen Hrow k. subst k.
  eexists.
  split; [exact (launch_detached_run host tui options w term events
                   Hwait Hterm Hspawn)|].
  cbn [store set_clock]. rewrite recorded_store, Hid.
  destruct (after_detect_frame host options
              (set_clock (S (clock w)) w)) as (_ & Hst & _).
  cbn [clock store log_spawn set_clock] in *. rewrite Hst.
  cbn [exitCode duration error].
  rewrite (addLaunchHistory_run _ t row _ _ _ _ Hopen Hrow).
  cbn [snd launch_history tuis]. split; [reflexivity|].
  rewrite lookup_alter_eq, Hrow. split; reflexivity.
Qed.

Lemma launch_detached_records_htop :
  exists w',
    launch (kitty_host []) htop detached fresh
    = (Val (Resolved (mkLaunchResult true None (Some 14) None)), w')
    /\ launch_history (store w')
       = [] ++ [mkLaunchHistory 1 1 52 None (Some 7) None]
    /\ launch_count <$> tuis (store w') !! 1 = Some 1
    /\ last_launched_at <$> tuis (store w') !! 1 = Some (Some 52).
Proof.
  apply (launch_detached_records (kitty_host []) htop detached fresh "kitty"
           [] 1 htop); reflexivity.
Defined.

Lemma number_or_absent_idem v :
  number_or_absent (number_or_absent v) = number_or_absent v.
Proof.
  destruct v as [n|]; [|reflexivity]. simpl.
  destruct (n =? 0) eqn:Hn; [reflexivity|]. simpl. rewrite Hn. reflexivity.
Qed.

(** X9: an attached launch whose child emits one event, for a TUI whose
    row is in an open database, appends exactly one history row and raises
    the launch count by one; the row carries the exit code and the error
    of the outcome returned, and its duration (NULL when it is 0, as for
    an empty error message). *)
Theorem launch_attached_records host tui options w term ev t row :
  default false (waitForExit options) = true ->
  chosen_terminal host options = Some term ->
  os_spawn host (spawn_call host tui options term) = Spawned [ev] ->
  id tui = Some t ->
  closed (store w) = false ->
  tuis (store w) !! t = Some row ->
  exists r w',
    launch host tui options w = (Val (Resolved r), w')
    /\ launch_history (store w')
       = launch_history (store w)
         ++ [mkLaunchHistory (history_seq (store w) + 1) t
               (current_timestamp host (S (S (clock w)))) (exitCode r)
               (number_or_absent (duration r)) (string_or_absent (error r))]
    /\ launch_count <$> tuis (store w') !! t = Some (launch_count row + 1).
Proof.
  intros Hwait Hterm Hspawn Hid Hopen Hrow.
  eexists _, _.
  split; [exact (launch_attached_single_run host tui options w term ev
                   Hwait Hterm Hspawn)|].
  rewrite recorded_store, Hid.
  destruct (after_detect_frame host options
              (set_clock (S (clock w)) w)) as (_ & Hst & _).
  cbn [clock store log_spawn set_clock] in *. rewrite Hst.
  rewrite (addLaunchHistory_run _ t row _ _ _ _ Hopen Hrow).
  cbn [snd launch_history tuis]. split.
  - do 3 f_equal. destruct ev as [code|message]; cbn [event_result exitCode].
    + apply number_or_absent_idem.
    + reflexivity.
  - rewrite lookup_alter_eq, Hrow. reflexivity.
Qed.

Lemma launch_attached_records_htop :
  exists r w',
    launch (kitty_host [Exit (Some 2)]) htop attached fresh
    = (Val (Resolved r), w')
    /\ launch_history (store w')
       = [] ++ [mkLaunchHistory 1 1 52 (exitCode r)
                  (number_or_absent (duration r))
                  (string_or_absent (error r))]
    /\ launch_count <$> tuis (store w') !! 1 = Some 1.
Proof.
  apply (launch_attached_records (kitty_host [Exit (Some 2)]) htop attached
           fresh "kitty" (Exit (Some 2)) 1 htop); reflexivity.
Defined.

(** ** The call to [spawn] *)

Lemma buildLaunchCommand_head term command args :
  hd "" (buildLaunchCommand term command args)
  = if bool_decide (term ∈ terminals) then term else "xterm".
Proof.
  unfold buildLaunchCommand.
  repeat match goal with
  | |- context [String.eqb term ?k] =>
      destruct (String.eqb_spec term k) as [->|?]; [reflexivity|]
  end.
  rewrite bool_decide_eq_false_2; [reflexivity|].
  unfold terminals. intros Hin.
  repeat (apply elem_of_cons in Hin as [Hin|Hin]; [contradiction|]).
  inversion Hin.
Qed.

Lemma launch_probes host tui options w :
  probes (launch host tui options w).2 = probes (after_detect host options w).
Proof.
  unfold launch, settle. rewrite launch_body_run. cbn zeta.
  rewrite launch_try_run.
  assert (Hp : probes (after_detect host options (set_clock (S (clock w)) w))
               = probes (after_detect host options w)).
  { unfold after_detect.
    destruct (string_or_absent (terminal options)); reflexivity. }
  destruct (chosen_terminal host options) as [term|]; [|exact Hp].
  cbn zeta.
  destruct (os_spawn host (spawn_call host tui options term)) as [e|events];
    [exact Hp|].
  destruct (default false (waitForExit options)).
  - unfold mbind, M_bind, bind.
    destruct (deliver_run host tui (now host (clock w)) events None
                (log_spawn (spawn_call host tui options term)
                   (after_detect host options (set_clock (S (clock w)) w))))
      as (w' & -> & Hp' & _).
    cbn. rewrite Hp'. exact Hp.
  - cbn [snd set_clock probes].
    match goal with |- context [recorded ?h ?i ?r ?x] =>
      destruct (recorded_frame h i r x) as (_ & -> & _) end.
    exact Hp.
Qed.

(** X10: once a terminal is settled on, [launch] calls [spawn] exactly
    once.  The binary is that terminal when it is one of the nine known,
    else xterm; the arguments end in [sh -c] and the command joined with
    the arguments from [options]; the working directory is [options.cwd]
    unless that is absent or empty, then the process's own; the child is
    detached with its streams ignored exactly when [waitForExit] is absent
    or false.  A terminal given in [options] is taken without probing the
    host, and a detected one is always one of the nine. *)
Theorem launch_spawn_call host tui options w term :
  chosen_terminal host options = Some term ->
  exists c,
    spawns (launch host tui options w).2 = spawns w ++ [c]
    /\ sp_file c = (if bool_decide (term ∈ terminals) then term else "xterm")
    /\ (exists flags,
          sp_args c
          = flags ++ ["sh"; "-c";
                      join " " (command tui :: default [] (args options))])
    /\ sp_cwd c = match cwd options with
                  | Some d => if String.eqb d "" then process_cwd host else d
                  | None => process_cwd host
                  end
    /\ sp_detached c = negb (default false (waitForExit options))
    /\ sp_stdio c = (if default false (waitForExit options)
                     then StdioInherit else StdioIgnore)
    /\ match terminal options with
       | Some given =>
           if String.eqb given "" then term ∈ terminals
           else term = given /\ probes (launch host tui options w).2 = probes w
       | None => term ∈ terminals
       end.
Proof.
  intros Hterm. exists (spawn_call host tui options term).
  split; [rewrite launch_spawns, Hterm; reflexivity|].
  unfold spawn_call. cbn [sp_file sp_args sp_cwd sp_detached sp_stdio].
  split; [apply buildLaunchCommand_head|]. split.
  - destruct (buildLaunchCommand_wraps term) as (emulator & flags & Hwrap).
    exists flags. rewrite Hwrap, fullCommand_join. reflexivity.
  - split.
    { destruct (cwd options) as [d|]; [|reflexivity]. simpl.
      destruct (String.eqb d ""); reflexivity. }
    split; [reflexivity|]. split; [reflexivity|].
    assert (Hfound : find (resolves host) terminals = Some term ->
                     term ∈ terminals).
    { intros Hfind. apply find_some in Hfind as [Hin _].
      apply list_elem_of_In. exact Hin. }
    revert Hterm. rewrite launch_probes.
    unfold chosen_terminal, after_detect, string_or_absent.
    destruct (terminal options) as [given|]; [|exact Hfound].
    destruct (String.eqb given ""); [exact Hfound|].
    intros [= <-]. split; reflexivity.
Qed.

Lemma launch_spawn_call_foot :
  exists c,
    spawns (launch (kitty_host [])
              htop (mkLaunchOptions (Some ["-d"; "5"]) (Some "/tmp")
                      (Some "foot") None) fresh).2
    = spawns fresh ++ [c]
    /\ sp_file c = "xterm"
    /\ (exists flags, sp_args c = flags ++ ["sh"; "-c"; "htop -d 5"])
    /\ sp_cwd c = "/tmp"
    /\ sp_detached c = true
    /\ sp_stdio c = StdioIgnore
    /\ "foot" = "foot"
    /\ probes (launch (kitty_host [])
                 htop (mkLaunchOptions (Some ["-d"; "5"]) (Some "/tmp")
                         (Some "foot") None) fresh).2
       = probes fresh.
Proof.
  apply (launch_spawn_call (kitty_host []) htop
           (mkLaunchOptions (Some ["-d"; "5"]) (Some "/tmp") (Some "foot") None)
           fresh "foot").
  reflexivity.
Defined.

(** X11: [buildLaunchCommand] keeps no trace of where one argument ends and
    the next begins: the argv for a list of arguments is the argv for the
    single argument that joins them with spaces, so an argument holding a
    space reaches the shell as two words. *)
Theorem buildLaunchCommand_forgets_boundaries terminal command arg rest :
  buildLaunchCommand terminal command (arg :: rest)
  = buildLaunchCommand terminal command [join " " (arg :: rest)]
  /\ buildLaunchCommand terminal command ["--name"; "a b"]
     = buildLaunchCommand terminal command ["--name"; "a"; "b"].
Proof. split; reflexivity. Qed.

(** ** Tab navigation *)

Lemma App_select_in_range i v :
  0 ≤ i < 7 ->
  exists v',
    App.select i v = (Val tt, v')
    /\ App.in_sync v'
    /\ App.selectedTabIndex v' = i
    /\ App.exited v' = App.exited v
    /\ AppStore.setActiveTab (AppStore.activeTab (App.state v)) (App.state v')
       = App.state v.
Proof.
  intros Hi.
  assert (Hcases : i = 0 \/ i = 1 \/ i = 2 \/ i = 3 \/ i = 4 \/ i = 5 \/ i = 6)
    by lia.
  destruct v as [idx [] ex].
  destruct Hcases as [->|[->|[->|[->|[->|[->| ->]]]]]];
    (eexists; split; [reflexivity|];
     split; [split; [cbn; lia|reflexivity]|repeat split]).
Qed.

Lemma App_handleKey_in_sync parseInt key v :
  App.in_sync v ->
  exists v',
    App.handleKey parseInt key v = (Val tt, v')
    /\ (App.in_sync v')
    /\ (App.exited v = None -> App.exited v' = None \/ key = "q").
Proof.
  intros [Hrange Htab]. unfold App.handleKey.
  destruct (App.tab_number (parseInt key)) as [num|] eqn:Hnum.
  - unfold App.tab_number in Hnum. destruct (parseInt key) as [n|]; [|discriminate].
    destruct ((1 <=? n) && (n <=? 7)) eqn:Hn; [|discriminate].
    injection Hnum as <-. apply andb_true_iff in Hn as [H1 H7].
    apply Z.leb_le in H1, H7.
    destruct (App_select_in_range (n - 1) v) as (v' & -> & Hs & _ & Hex & _);
      [lia|].
    exists v'. split; [reflexivity|]. split; [exact Hs|].
    intros Hnone. left. congruence.
  - change (Z.of_nat (length App.tabs)) with 7.
    destruct (String.eqb key "left" || String.eqb key "h").
    { destruct (App_select_in_range
                  (Z.rem (App.selectedTabIndex v - 1 + 7) 7) v)
        as (v' & -> & Hs & _ & Hex & _).
      { rewrite Z.rem_mod_nonneg by lia.
        pose proof (Z.mod_pos_bound (App.selectedTabIndex v - 1 + 7) 7). lia. }
      exists v'. split; [reflexivity|]. split; [exact Hs|].
      intros Hnone. left. congruence. }
    destruct (String.eqb key "right" || String.eqb key "l").
    { destruct (App_select_in_range
                  (Z.rem (App.selectedTabIndex v + 1) 7) v)
        as (v' & -> & Hs & _ & Hex & _).
      { rewrite Z.rem_mod_nonneg by lia.
        pose proof (Z.mod_pos_bound (App.selectedTabIndex v + 1) 7). lia. }
      exists v'. split; [reflexivity|]. split; [exact Hs|].
      intros Hnone. left. congruence. }
    destruct (String.eqb_spec key "q") as [->|Hq].
    { eexists. split; [reflexivity|]. split; [split; assumption|].
      intros _. right. reflexivity. }
    exists v. split; [reflexivity|]. split; [split; assumption|].
    intros Hnone. left. exact Hnone.
Qed.

(** X12: whatever [parseInt] returns and whatever keys are pressed, the
    keyboard handler of [App] never throws, the selected tab index stays
    within 0..6 and the active tab of the global state is the tab at that
    index, provided they start so, as they do in the initial view. *)
Theorem App_keys_keep_tab_in_sync parseInt keys v :
  App.in_sync v ->
  exists v',
    App.press parseInt keys v = (Val tt, v') /\ App.in_sync v'.
Proof.
  revert v. induction keys as [|key rest IH]; intros v Hv.
  - exists v. split; [reflexivity|exact Hv].
  - simpl. destruct (App.exited v); [exists v; split; [reflexivity|exact Hv]|].
    destruct (App_handleKey_in_sync parseInt key v Hv) as (v' & -> & Hv' & _).
    apply IH, Hv'.
Qed.

Lemma App_keys_keep_tab_in_sync_initial :
  App.in_sync App.initial
  /\ exists v',
      App.press App.digit ["left"; "left"; "3"; "l"; "x"; "h"; "q"; "1"]
        App.initial
      = (Val tt, v')
      /\ App.in_sync v'.
Proof.
  assert (H : App.in_sync App.initial).
  { split; [cbn; lia|reflexivity]. }
  split; [exact H|].
  exact (App_keys_keep_tab_in_sync App.digit
           ["left"; "left"; "3"; "l"; "x"; "h"; "q"; "1"] App.initial H).
Defined.

(** X13: moving one tab to the right and one to the left cancel, in either
    order, from any view in which index and tab agree, and seven moves to
    the right come back to the tab they started from: navigation wraps
    around the seven tabs.  The keys are [left] or [h] and [right] or [l],
    which [parseInt] does not read as a number from 1 to 7. *)
Theorem App_left_right_cancel parseInt kl kr v :
  App.in_sync v ->
  kl = "left" \/ kl = "h" ->
  kr = "right" \/ kr = "l" ->
  App.tab_number (parseInt kl) = None ->
  App.tab_number (parseInt kr) = None ->
  (App.handleKey parseInt kl (App.handleKey parseInt kr v).2).2 = v
  /\ (App.handleKey parseInt kr (App.handleKey parseInt kl v).2).2 = v
  /\ (App.exited v = None ->
      (App.press parseInt [kr; kr; kr; kr; kr; kr; kr] v).2 = v).
Proof.
  intros [Hrange Htab] Hkl Hkr Hl Hr.
  destruct v as [idx [active l c sh q cf sf inf th ld er] ex].
  cbn [App.selectedTabIndex App.state AppStore.activeTab] in *.
  assert (Hcases : idx = 0 \/ idx = 1 \/ idx = 2 \/ idx = 3 \/ idx = 4
                   \/ idx = 5 \/ idx = 6) by lia.
  clear Hrange.
  destruct Hkl as [->| ->], Hkr as [->| ->];
    destruct Hcases as [->|[->|[->|[->|[->|[->| ->]]]]]];
    cbn in Htab; injection Htab as <-;
    (split; [|split; [|cbn [App.exited]; intros ->]]);
    repeat (cbn [App.press App.exited]; unfold App.handleKey;
            rewrite ?Hl, ?Hr; cbn);
    reflexivity.
Qed.

Lemma App_left_right_cancel_initial :
  (App.handleKey App.digit "left"
     (App.handleKey App.digit "l" App.initial).2).2 = App.initial
  /\ (App.handleKey App.digit "l"
        (App.handleKey App.digit "left" App.initial).2).2 = App.initial
  /\ (App.exited App.initial = None ->
      (App.press App.digit ["l"; "l"; "l"; "l"; "l"; "l"; "l"]
         App.initial).2 = App.initial).
Proof.
  apply (App_left_right_cancel App.digit "left" "l" App.initial).
  - split; [cbn; lia|reflexivity].
  - left; reflexivity.
  - right; reflexivity.
  - reflexivity.
  - reflexivity.
Defined.

(** ** The cached list of TUIs *)

Lemma AppStore_setTUIs_same st : AppStore.setTUIs (AppStore.tuis st) st = st.
Proof. destruct st; reflexivity. Qed.

Lemma AppStore_spread_nothing tui :
  AppStore.spread tui (AppStore.mkPartialTUI None None None None None) = tui.
Proof. destruct tui; reflexivity. Qed.

(** X14: [removeTUI] drops every cached entry with the given id and
    nothing else: the remaining entries are those of another id (or none),
    in their order; removing again, or removing an id no entry has,
    changes nothing; an entry added with [addTUI] is removed with its id,
    and otherwise adding and removing commute.  No other part of the state
    is touched. *)
Theorem AppStore_removeTUI_drops_id i st :
  Forall (fun tui => id tui <> Some i)
    (AppStore.tuis (AppStore.removeTUI i st))
  /\ (forall tui, id tui <> Some i ->
        tui ∈ AppStore.tuis (AppStore.removeTUI i st)
        <-> tui ∈ AppStore.tuis st)
  /\ AppStore.tuis (AppStore.removeTUI i st) `sublist_of` AppStore.tuis st
  /\ AppStore.removeTUI i (AppStore.removeTUI i st) = AppStore.removeTUI i st
  /\ (Forall (fun tui => id tui <> Some i) (AppStore.tuis st) ->
      AppStore.removeTUI i st = st)
  /\ (forall tui,
        AppStore.removeTUI i (AppStore.addTUI tui st)
        = if decide (id tui = Some i) then AppStore.removeTUI i st
          else AppStore.addTUI tui (AppStore.removeTUI i st))
  /\ AppStore.setTUIs (AppStore.tuis st) (AppStore.removeTUI i st) = st.
Proof.
  destruct st as [active l c sh q cf sf inf th ld er].
  unfold AppStore.removeTUI, AppStore.addTUI, AppStore.setTUIs.
  cbn [AppStore.tuis AppStore.activeTab AppStore.categories
       AppStore.showcaseTUI AppStore.searchQuery AppStore.categoryFilter
       AppStore.sourceFilter AppStore.installedFilter AppStore.theme
       AppStore.isLoading AppStore.error].
  split; [|split; [|split; [|split; [|split; [|split]]]]].
  - apply Forall_forall. intros tui Htui.
    apply list_elem_of_filter in Htui. tauto.
  - intros tui Hne. rewrite list_elem_of_filter. tauto.
  - apply sublist_filter.
  - f_equal. rewrite list_filter_filter. apply list_filter_iff. tauto.
  - intros Hall. f_equal. induction Hall as [|tui l' Hne _ IH];
      [reflexivity|].
    rewrite filter_cons. destruct (decide (id tui <> Some i));
      [f_equal; exact IH|contradiction].
  - intros tui. rewrite filter_app, filter_cons, filter_nil.
    destruct (decide (id tui = Some i)) as [Heq|Hne].
    + destruct (decide (id tui <> Some i)); [contradiction|].
      rewrite app_nil_r. reflexivity.
    + destruct (decide (id tui <> Some i)); [reflexivity|contradiction].
  - reflexivity.
Qed.

(** X15: [updateTUI] merges the update into every cached entry with the
    given id and leaves the others, the length and the order alone: the
    entry at each position with that id takes, column by column, the value
    of the update where the update has the key and keeps its own where it
    has not, and an entry with another id is unchanged.  An id no entry
    has, or an update with no key, changes nothing; two
    updates of the same id, the first not changing the id, amount to one
    update with the later keys winning; and an update that changes the id
    leaves no entry with the old one. *)
Theorem AppStore_updateTUI_merges i u st :
  length (AppStore.tuis (AppStore.updateTUI i u st))
  = length (AppStore.tuis st)
  /\ (forall n tui,
        AppStore.tuis st !! n = Some tui ->
        exists tui',
          AppStore.tuis (AppStore.updateTUI i u st) !! n = Some tui'
          /\ if decide (id tui = Some i) then
               id tui'
               = match AppStore.p_id u with Some v => v | None => id tui end
               /\ name tui'
                  = match AppStore.p_name u with
                    | Some v => v
                    | None => name tui
                    end
               /\ command tui'
                  = match AppStore.p_command u with
                    | Some v => v
                    | None => command tui
                    end
               /\ last_launched_at tui'
                  = match AppStore.p_last_launched_at u with
                    | Some v => v
                    | None => last_launched_at tui
                    end
               /\ launch_count tui'
                  = match AppStore.p_launch_count u with
                    | Some v => v
                    | None => launch_count tui
                    end
             else tui' = tui)
  /\ (Forall (fun tui => id tui <> Some i) (AppStore.tuis st) ->
      AppStore.updateTUI i u st = st)
  /\ AppStore.updateTUI i (AppStore.mkPartialTUI None None None None None) st
     = st
  /\ (forall u2,
        AppStore.p_id u = None ->
        AppStore.updateTUI i u2 (AppStore.updateTUI i u st)
        = AppStore.updateTUI i (AppStore.overlay u u2) st)
  /\ (forall j,
        AppStore.p_id u = Some j -> j <> Some i ->
        Forall (fun tui => id tui <> Some i)
          (AppStore.tuis (AppStore.updateTUI i u st)))
  /\ AppStore.setTUIs (AppStore.tuis st) (AppStore.updateTUI i u st) = st.
Proof.
  destruct st as [active l c sh q cf sf inf th ld er].
  unfold AppStore.updateTUI, AppStore.setTUIs.
  cbn [AppStore.tuis AppStore.activeTab AppStore.categories
       AppStore.showcaseTUI AppStore.searchQuery AppStore.categoryFilter
       AppStore.sourceFilter AppStore.installedFilter AppStore.theme
       AppStore.isLoading AppStore.error].
  split; [|split; [|split; [|split; [|split; [|split]]]]].
  - apply length_fmap.
  - intros n tui Hn. rewrite list_lookup_fmap, Hn.
    cbn [fmap option_fmap option_map].
    eexists. split; [reflexivity|].
    destruct (decide (id tui = Some i)); [|reflexivity].
    unfold AppStore.spread. cbn [id name command last_launched_at launch_count].
    destruct u as [[?|] [?|] [?|] [?|] [?|]]; repeat split.
  - intros Hall. f_equal. induction Hall as [|tui l' Hne _ IH];
      [reflexivity|].
    cbn. destruct (decide (id tui = Some i)); [contradiction|].
    f_equal. exact IH.
  - f_equal. induction l as [|tui l' IH]; [reflexivity|].
    cbn. rewrite IH, AppStore_spread_nothing.
    destruct (decide (id tui = Some i)); reflexivity.
  - intros u2 Hid. f_equal. rewrite <- list_fmap_compose.
    apply list_fmap_ext. intros _ tui _. cbn.
    destruct (decide (id tui = Some i)) as [Heq|Hne].
    + assert (Hkeep : id (AppStore.spread tui u) = Some i).
      { unfold AppStore.spread. cbn. rewrite Hid. exact Heq. }
      destruct (decide (id (AppStore.spread tui u) = Some i));
        [|contradiction].
      destruct tui, u, u2. cbn in *. subst.
      unfold AppStore.spread, AppStore.overlay. cbn.
      f_equal;
        match goal with
        | |- context [match ?o with Some _ => _ | None => _ end] =>
            destruct o; reflexivity
        end.
    + destruct (decide (id tui = Some i)); [contradiction|reflexivity].
  - intros j Hid Hne. apply Forall_fmap, Forall_forall. intros tui _. cbn.
    destruct (decide (id tui = Some i)) as [Heq|Hne']; [|exact Hne'].
    unfold AppStore.spread. cbn. rewrite Hid. cbn. exact Hne.
  - reflexivity.
Qed.

(** ** The settings *)

Lemma Db_setting_keys (m : gmap string Db.Setting) :
  (forall k st, m !! k = Some st -> Db.key st = k) ->
  Db.key <$> (map_to_list m).*2 = (map_to_list m).*1.
Proof.
  intros Hkeyed. rewrite <- list_fmap_compose.
  apply list_fmap_ext. intros i [k st] Hi. cbn.
  apply Hkeyed, elem_of_map_to_list, list_elem_of_lookup. eauto.
Qed.

Lemma Db_well_formed_settings db m :
  Db.well_formed db ->
  (forall k st, m !! k = Some st -> Db.key st = k) ->
  Db.well_formed
    (Db.mkDatabase (Db.core db) (Db.details db) (Db.tui_seq db) m).
Proof.
  intros (Hdom & Hrows & Hslug & _) Hm.
  split; [exact Hdom|]. split; [exact Hrows|]. split; [exact Hslug|exact Hm].
Qed.

(** X16: on an open database [setSetting] stores the value under its key,
    replacing what was there: [getSetting] of that key then returns it,
    every other key reads as before, [getAllSettings] lists each key once
    and this one with the new value, a later [setSetting] of the same key
    wins, and no other table changes.  A key that was never set reads as
    null. *)
Theorem Db_setSetting_getSetting k v ty db :
  Db.well_formed db ->
  closed (Db.core db) = false ->
  exists db',
    Db.setSetting k v ty db = (Val tt, db')
    /\ Db.well_formed db'
    /\ Db.getSetting k db' = Val (Some (Db.mkSetting k v (Some ty)))
    /\ (forall k', k' <> k -> Db.getSetting k' db' = Db.getSetting k' db)
    /\ (exists l,
          Db.getAllSettings db' = Val l
          /\ NoDup (Db.key <$> l)
          /\ Db.mkSetting k v (Some ty) ∈ l)
    /\ (forall v2 ty2,
          Db.setSetting k v2 ty2 db' = Db.setSetting k v2 ty2 db)
    /\ (Db.settings db !! k = None -> Db.getSetting k db = Val None)
    /\ Db.core db' = Db.core db
    /\ Db.details db' = Db.details db
    /\ Db.tui_seq db' = Db.tui_seq db.
Proof.
  intros Hwf Hopen. unfold Db.setSetting, Db.getSetting, Db.getAllSettings.
  rewrite Hopen. eexists. split; [reflexivity|].
  assert (Hkeyed : forall k0 st,
            <[k := Db.mkSetting k v (Some ty)]> (Db.settings db) !! k0
            = Some st -> Db.key st = k0).
  { intros k0 st. destruct (decide (k = k0)) as [->|Hne].
    - rewrite lookup_insert_eq. intros [= <-]. reflexivity.
    - rewrite lookup_insert_ne by exact Hne.
      destruct Hwf as (_ & _ & _ & Hs). apply Hs. }
  split; [apply Db_well_formed_settings; assumption|].
  cbn [Db.core Db.settings Db.details Db.tui_seq]. rewrite Hopen.
  split; [rewrite lookup_insert_eq; reflexivity|].
  split; [intros k' Hne; rewrite lookup_insert_ne by congruence; reflexivity|].
  split.
  { eexists. split; [reflexivity|]. split.
    - rewrite (Db_setting_keys _ Hkeyed). apply NoDup_fst_map_to_list.
    - apply list_elem_of_fmap. exists (k, Db.mkSetting k v (Some ty)).
      split; [reflexivity|]. apply elem_of_map_to_list, lookup_insert_eq. }
  split; [intros; rewrite insert_insert_eq; reflexivity|].
  split; [intros ->; reflexivity|]. repeat split.
Qed.

Lemma registry_well_formed : Db.well_formed registry.
Proof.
  assert (Htable : forall k row,
            Db.table registry !! k = Some row ->
            (k = 1 /\ row = (htop, Db.mkDetails "htop" (Some "System")
                                     "manual" 1 0 10))
            \/ (k = 2 /\ row = (btop, Db.mkDetails "btop" (Some "System")
                                        "github" 0 1 20))).
  { intros k [t d] Hrow. apply map_lookup_zip_Some in Hrow as [Ht Hd].
    unfold registry in Ht, Hd. cbn [Db.core Db.details tuis fst snd] in Ht, Hd.
    destruct (decide (k = 1)) as [->|H1].
    - left. rewrite lookup_insert_eq in Ht. rewrite lookup_insert_eq in Hd.
      injection Ht as <-. injection Hd as <-. split; reflexivity.
    - rewrite lookup_insert_ne in Ht by congruence.
      rewrite lookup_insert_ne in Hd by congruence.
      apply lookup_singleton_Some in Ht as [<- <-].
      apply lookup_singleton_Some in Hd as [_ <-].
      right. split; reflexivity. }
  split; [|split; [|split]].
  - unfold registry. cbn [Db.core Db.details tuis].
    rewrite !dom_insert_L, !dom_singleton_L. reflexivity.
  - intros k row Hrow.
    destruct (Htable k row Hrow) as [[-> ->]|[-> ->]]; split;
      first [reflexivity | cbn; lia].
  - intros k1 k2 row1 row2 H1 H2.
    destruct (Htable k1 row1 H1) as [[-> ->]|[-> ->]],
             (Htable k2 row2 H2) as [[-> ->]|[-> ->]];
      cbn; intros Hs; first [reflexivity | discriminate Hs].
  - intros k st Hst. unfold registry in Hst. cbn [Db.settings] in Hst.
    apply lookup_singleton_Some in Hst as [<- <-]. reflexivity.
Qed.

Lemma Db_setSetting_getSetting_theme :
  exists db',
    Db.setSetting "theme" "gruvbox" "string" registry = (Val tt, db')
    /\ Db.well_formed db'
    /\ Db.getSetting "theme" db'
       = Val (Some (Db.mkSetting "theme" "gruvbox" (Some "string")))
    /\ (forall k', k' <> "theme" ->
          Db.getSetting k' db' = Db.getSetting k' registry)
    /\ (exists l,
          Db.getAllSettings db' = Val l
          /\ NoDup (Db.key <$> l)
          /\ Db.mkSetting "theme" "gruvbox" (Some "string") ∈ l)
    /\ (forall v2 ty2,
          Db.setSetting "theme" v2 ty2 db'
          = Db.setSetting "theme" v2 ty2 registry)
    /\ (Db.settings registry !! "theme" = None ->
        Db.getSetting "theme" registry = Val None)
    /\ Db.core db' = Db.core registry
    /\ Db.details db' = Db.details registry
    /\ Db.tui_seq db' = Db.tui_seq registry.
Proof.
  exact (Db_setSetting_getSetting "theme" "gruvbox" "string" registry
           registry_well_formed eq_refl).
Defined.

(** ** Listing the registry *)

#[local] Instance name_le_total : Total Db.name_le.
Proof. intros a b. unfold Db.name_le. apply String.leb_total. Qed.

Lemma Db_getAllTUIs_open filters db :
  closed (Db.core db) = false ->
  Db.getAllTUIs filters db = Val (Db.rowToTUI <$> Db.select_rows filters db).
Proof. intros Hopen. unfold Db.getAllTUIs. rewrite Hopen. reflexivity. Qed.

Lemma Db_rows_elem filters db row :
  row ∈ Db.select_rows filters db
  <-> Db.matches filters row /\ exists k, Db.table db !! k = Some row.
Proof.
  unfold Db.select_rows. rewrite merge_sort_Permutation, list_elem_of_filter.
  rewrite list_elem_of_fmap. split.
  - intros [Hm ([k row'] & -> & Hin)]. split; [exact Hm|].
    exists k. apply elem_of_map_to_list. exact Hin.
  - intros [Hm [k Hk]]. split; [exact Hm|].
    exists (k, row). split; [reflexivity|].
    apply elem_of_map_to_list. exact Hk.
Qed.

Lemma Db_entries_elem filters db e :
  e ∈ Db.rowToTUI <$> Db.select_rows filters db
  <-> exists k row,
        Db.table db !! k = Some row /\ Db.matches filters row
        /\ e = Db.rowToTUI row.
Proof.
  rewrite list_elem_of_fmap. split.
  - intros (row & -> & Hrow). apply Db_rows_elem in Hrow as [Hm [k Hk]].
    exists k, row. split; [exact Hk|]. split; [exact Hm|reflexivity].
  - intros (k & row & Hk & Hm & ->). exists row. split; [reflexivity|].
    apply Db_rows_elem. split; [exact Hm|]. exists k. exact Hk.
Qed.

Lemma Db_rows_NoDup filters db :
  Db.well_formed db -> NoDup (Db.rowToTUI <$> Db.select_rows filters db).
Proof.
  intros (_ & Hrows & _ & _).
  assert (Hkey : forall k row, (k, row) ∈ map_to_list (Db.table db) ->
                                id row.1 = Some k).
  { intros k row Hin. apply elem_of_map_to_list in Hin.
    apply (Hrows k row Hin). }
  apply NoDup_fmap_2_strong.
  - intros row1 row2 H1 H2 Heq.
    apply Db_rows_elem in H1 as [_ [k1 Hk1]].
    apply Db_rows_elem in H2 as [_ [k2 Hk2]].
    assert (k1 = k2) as ->.
    { destruct (Hrows k1 row1 Hk1) as [_ Hid1].
      destruct (Hrows k2 row2 Hk2) as [_ Hid2].
      assert (Hbase : row1.1 = row2.1)
        by exact (f_equal Db.base Heq).
      rewrite Hbase in Hid1. congruence. }
    congruence.
  - unfold Db.select_rows. rewrite merge_sort_Permutation.
    apply NoDup_filter, NoDup_fmap_2_strong; [|apply NoDup_map_to_list].
    intros [k1 row1] [k2 row2] H1 H2 Heq. cbn in Heq. subst row2.
    pose proof (Hkey k1 row1 H1) as Hid1.
    pose proof (Hkey k2 row1 H2) as Hid2.
    congruence.
Qed.

(** X17: [getAllTUIs] throws on a closed database; otherwise it lists
    exactly the rows of [tuis] that satisfy the filters that are set,
    each as [rowToTUI] shows it, in the byte order of their names, and
    every row once. *)
Theorem Db_getAllTUIs_selects filters db :
  match Db.getAllTUIs filters db with
  | Raise _ => closed (Db.core db) = true
  | Val l =>
      closed (Db.core db) = false
      /\ (forall e,
            e ∈ l
            <-> exists k row,
                  Db.table db !! k = Some row /\ Db.matches filters row
                  /\ e = Db.rowToTUI row)
      /\ Sorted (fun a b =>
                   String.leb (name (Db.base a)) (name (Db.base b)) = true) l
      /\ (Db.well_formed db -> NoDup l)
  end.
Proof.
  destruct (closed (Db.core db)) eqn:Hclosed.
  - unfold Db.getAllTUIs. rewrite Hclosed. reflexivity.
  - rewrite (Db_getAllTUIs_open filters db Hclosed).
    split; [reflexivity|]. split; [apply Db_entries_elem|]. split.
    + apply (Sorted_fmap Db.rowToTUI Db.name_le); [tauto|].
      apply Sorted_merge_sort, _.
    + apply Db_rows_NoDup.
Qed.

(** X18: the list getters of the registry are views of the full list:
    [getInstalled] and [getFavorites] hold exactly the entries of
    [getAllTUIs] shown as installed or as favourite, [getByCategory] and
    [getBySource] exactly those of the category or source; but
    [getByCategory] of the empty string does not filter at all. *)
Theorem Registry_getters_are_views db :
  closed (Db.core db) = false ->
  exists all,
    Db.getAllTUIs Db.no_filters db = Val all
    /\ (exists l, Registry.getInstalled db = Val l
                  /\ forall e, e ∈ l <-> e ∈ all /\ Db.e_is_installed e = true)
    /\ (exists l, Registry.getFavorites db = Val l
                  /\ forall e, e ∈ l <-> e ∈ all /\ Db.e_is_favorite e = true)
    /\ (forall c, c <> "" ->
          exists l, Registry.getByCategory c db = Val l
                    /\ forall e, e ∈ l <-> e ∈ all /\ Db.e_category e = Some c)
    /\ Registry.getByCategory "" db = Val all
    /\ (forall s,
          exists l, Registry.getBySource s db = Val l
                    /\ forall e, e ∈ l <-> e ∈ all /\ Db.e_source e = s).
Proof.
  intros Hopen. eexists. split; [apply Db_getAllTUIs_open, Hopen|].
  assert (Hall : forall e,
            e ∈ Db.rowToTUI <$> Db.select_rows Db.no_filters db
            <-> exists k row, Db.table db !! k = Some row
                              /\ e = Db.rowToTUI row).
  { intros e. rewrite Db_entries_elem. split.
    - intros (k & row & Hk & _ & He). eauto.
    - intros (k & row & Hk & He). exists k, row.
      split; [exact Hk|]. split; [|exact He]. repeat split. }
  split; [|split; [|split; [|split]]].
  - eexists. split; [apply Db_getAllTUIs_open, Hopen|].
    intros e. rewrite Db_entries_elem, Hall. split.
    + intros (k & row & Hk & (Hi & _ & _) & ->). cbn in Hi.
      split; [eauto|]. cbn. apply bool_decide_eq_true_2. exact Hi.
    + intros [(k & row & Hk & ->) Hi]. exists k, row.
      split; [exact Hk|]. split; [|reflexivity].
      cbn in Hi. apply bool_decide_eq_true_1 in Hi.
      repeat split. exact Hi.
  - eexists. split; [apply Db_getAllTUIs_open, Hopen|].
    intros e. rewrite Db_entries_elem, Hall. split.
    + intros (k & row & Hk & (_ & Hf & _) & ->). cbn in Hf.
      split; [eauto|]. cbn. apply bool_decide_eq_true_2. exact Hf.
    + intros [(k & row & Hk & ->) Hf]. exists k, row.
      split; [exact Hk|]. split; [|reflexivity].
      cbn in Hf. apply bool_decide_eq_true_1 in Hf.
      repeat split. exact Hf.
  - intros c Hc. eexists. split; [apply Db_getAllTUIs_open, Hopen|].
    assert (Htruthy : string_or_absent (Some c) = Some c).
    { cbn. destruct (String.eqb_spec c ""); [contradiction|reflexivity]. }
    intros e. rewrite Db_entries_elem, Hall. split.
    + intros (k & row & Hk & (_ & _ & Hcat) & ->).
      cbn [Db.f_category] in Hcat. rewrite Htruthy in Hcat.
      split; [eauto|exact Hcat].
    + intros [(k & row & Hk & ->) Hcat]. exists k, row.
      split; [exact Hk|]. split; [|reflexivity].
      split; [exact I|]. split; [exact I|].
      cbn [Db.f_category]. rewrite Htruthy. exact Hcat.
  - unfold Registry.getByCategory, Db.getAllTUIs. rewrite Hopen.
    reflexivity.
  - intros s. unfold Registry.getBySource.
    rewrite (Db_getAllTUIs_open _ _ Hopen). eexists. split; [reflexivity|].
    intros e. rewrite list_elem_of_filter. tauto.
Qed.

Lemma Registry_getters_are_views_registry :
  exists all,
    Db.getAllTUIs Db.no_filters registry = Val all
    /\ (exists l, Registry.getInstalled registry = Val l
                  /\ forall e, e ∈ l <-> e ∈ all /\ Db.e_is_installed e = true)
    /\ (exists l, Registry.getFavorites registry = Val l
                  /\ forall e, e ∈ l <-> e ∈ all /\ Db.e_is_favorite e = true)
    /\ (forall c, c <> "" ->
          exists l, Registry.getByCategory c registry = Val l
                    /\ forall e, e ∈ l <-> e ∈ all /\ Db.e_category e = Some c)
    /\ Registry.getByCategory "" registry = Val all
    /\ (forall s,
          exists l, Registry.getBySource s registry = Val l
                    /\ forall e, e ∈ l <-> e ∈ all /\ Db.e_source e = s).
Proof. exact (Registry_getters_are_views registry eq_refl). Defined.

Example Registry_getInstalled_registry :
  Registry.getInstalled registry
  = Val [Db.mkEntry htop "htop" (Some "System") "manual" true false 10].
Proof. vm_compute. reflexivity. Qed.

(** ** Updating a row *)

Lemma Db_table_insert db tid row :
  map_zip (<[tid := row.1]> (tuis (Db.core db)))
    (<[tid := row.2]> (Db.details db))
  = <[tid := row]> (Db.table db).
Proof.
  unfold Db.table. destruct row as [t d]. cbn [fst snd].
  symmetry. apply map_insert_zip_with.
Qed.

Lemma Db_well_formed_update db tid row row' :
  Db.well_formed db ->
  Db.table db !! tid = Some row ->
  id row'.1 = id row.1 ->
  (forall k other, Db.table db !! k = Some other -> k <> tid ->
                   Db.slug other.2 <> Db.slug row'.2) ->
  Db.well_formed
    (Db.mkDatabase
       (mkStore (closed (Db.core db)) (<[tid := row'.1]> (tuis (Db.core db)))
          (launch_history (Db.core db)) (history_seq (Db.core db)))
       (<[tid := row'.2]> (Db.details db)) (Db.tui_seq db) (Db.settings db)).
Proof.
  intros (Hdom & Hrows & Hslug & Hset) Hrow Hid Hfree.
  unfold Db.well_formed, Db.table.
  cbn [Db.core Db.details Db.tui_seq Db.settings tuis].
  rewrite Db_table_insert.
  split; [rewrite !dom_insert_L, Hdom; reflexivity|].
  split; [|split; [|exact Hset]].
  - intros k r. destruct (decide (tid = k)) as [<-|Hne].
    + rewrite lookup_insert_eq. intros [= <-].
      destruct (Hrows tid row Hrow) as [Hle Hidk].
      split; [exact Hle|congruence].
    + rewrite lookup_insert_ne by exact Hne. apply Hrows.
  - intros k1 k2 r1 r2.
    destruct (decide (tid = k1)) as [<-|Hne1],
             (decide (tid = k2)) as [<-|Hne2];
      rewrite ?lookup_insert_eq, ?lookup_insert_ne by assumption.
    + reflexivity.
    + intros [= <-] H2 Hs. exfalso. apply (Hfree k2 r2 H2); congruence.
    + intros H1 [= <-] Hs. exfalso. apply (Hfree k1 r1 H1); congruence.
    + apply Hslug.
Qed.

Lemma Db_slug_check db tid (s : string) :
  ~ Exists (fun other : Z * (TUI * Db.Details) =>
              other.1 <> tid /\ Db.slug other.2.2 = s)
      (map_to_list (Db.table db))
  <-> forall k other, Db.table db !! k = Some other -> k <> tid ->
                      Db.slug other.2 <> s.
Proof.
  rewrite Exists_exists. split.
  - intros Hnone k other Hk Hne Hs. apply Hnone. exists (k, other).
    split; [apply elem_of_map_to_list; exact Hk|]. split; assumption.
  - intros Hfree ([k other] & Hin & Hne & Hs).
    apply elem_of_map_to_list in Hin. exact (Hfree k other Hin Hne Hs).
Qed.


(** X19: [updateTUI] returns false, and does nothing, when the update has
    no key to set (even on a closed database) or no row has the id.  It
    throws, and does nothing, when the database is closed or the new slug
    belongs to another row.  Otherwise it returns true: the row gets the
    keys of the update and a new [updated_at], keeps its id, every other
    row, the history and the settings stay as they were, and the database
    stays well formed. *)
Theorem Db_updateTUI_cases ts tid updates db :
  Db.well_formed db ->
  match Db.updateTUI ts tid updates db with
  | (Val changed, db') =>
      if changed then
        closed (Db.core db) = false
        /\ Db.no_fields updates = false
        /\ Db.well_formed db'
        /\ exists row,
            Db.table db !! tid = Some row
            /\ Db.table db' = <[tid := Db.assign ts updates row]> (Db.table db)
            /\ id (Db.assign ts updates row).1 = Some tid
            /\ Db.updated_at (Db.assign ts updates row).2 = ts
            /\ launch_history (Db.core db') = launch_history (Db.core db)
            /\ Db.settings db' = Db.settings db
      else
        db' = db
        /\ (Db.no_fields updates = true
            \/ (closed (Db.core db) = false /\ Db.table db !! tid = None))
  | (Raise _, db') =>
      db' = db
      /\ Db.no_fields updates = false
      /\ (closed (Db.core db) = true
          \/ exists row k other,
              Db.table db !! tid = Some row
              /\ Db.table db !! k = Some other /\ k <> tid
              /\ Db.slug other.2 = Db.slug (Db.assign ts updates row).2)
  end.
Proof.
  intros Hwf. unfold Db.updateTUI.
  destruct (Db.no_fields updates) eqn:Hfields;
    [split; [reflexivity|left; reflexivity]|].
  destruct (closed (Db.core db)) eqn:Hopen;
    [split; [reflexivity|split; [reflexivity|left; reflexivity]]|].
  destruct (Db.table db !! tid) as [row|] eqn:Hrow;
    [|split; [reflexivity|right; split; reflexivity]].
  cbn zeta.
  destruct (bool_decide _) eqn:Hcheck.
  - split; [reflexivity|]. split; [reflexivity|]. right.
    apply bool_decide_eq_true_1, Exists_exists in Hcheck
      as ([k other] & Hin & Hne & Hs).
    apply elem_of_map_to_list in Hin.
    exists row, k, other. repeat split; assumption.
  - apply bool_decide_eq_false_1 in Hcheck.
    pose proof (proj1 (Db_slug_check db tid
                         (Db.slug (Db.assign ts updates row).2)) Hcheck)
      as Hfree.
    destruct Hwf as (Hdom & Hrows & Hslug & Hset).
    destruct (Hrows tid row Hrow) as [_ Hid].
    split; [reflexivity|]. split; [reflexivity|]. split.
    + apply (Db_well_formed_update db tid row);
        [exact (conj Hdom (conj Hrows (conj Hslug Hset)))
        |exact Hrow|reflexivity|exact Hfree].
    + exists row. split; [reflexivity|]. split; [apply Db_table_insert|].
      split; [exact Hid|]. repeat split.
Qed.

Lemma Db_updateTUI_cases_registry :
  exists db',
    Db.updateTUI 99 1
      (Db.mkUpdates (AppStore.mkPartialTUI None (Some "htop-ng") None None None)
         None None None (Some false) None) registry
    = (Val true, db')
    /\ Db.well_formed db'.
Proof.
  pose proof (Db_updateTUI_cases 99 1
                (Db.mkUpdates
                   (AppStore.mkPartialTUI None (Some "htop-ng") None None None)
                   None None None (Some false) None)
                registry registry_well_formed) as Hcases.
  destruct (Db.updateTUI 99 1 _ registry) as [[changed|e] db'] eqn:Hrun.
  - assert (Hchanged : changed = true).
    { apply (f_equal fst) in Hrun. vm_compute in Hrun. congruence. }
    subst changed. exists db'. split; [reflexivity|apply Hcases].
  - apply (f_equal fst) in Hrun. vm_compute in Hrun. discriminate Hrun.
Defined.

(** ** Favourites *)

Lemma Db_getTUI_open tid db :
  closed (Db.core db) = false ->
  Db.getTUI tid db = Val (Db.rowToTUI <$> Db.table db !! tid).
Proof. intros Hopen. unfold Db.getTUI. rewrite Hopen. reflexivity. Qed.

Lemma Registry_toggle_run ts tid db row :
  Db.well_formed db ->
  closed (Db.core db) = false ->
  Db.table db !! tid = Some row ->
  Registry.toggleFavorite ts tid db
  = (Val true,
     Db.mkDatabase (Db.core db) (<[tid := toggled ts row]> (Db.details db))
       (Db.tui_seq db) (Db.settings db)).
Proof.
  intros (Hdom & Hrows & Hslug & Hset) Hopen Hrow.
  unfold Registry.toggleFavorite. rewrite (Db_getTUI_open _ _ Hopen), Hrow.
  cbn [fmap option_fmap option_map]. unfold Db.updateTUI.
  cbn [Db.no_fields Db.u_core Db.u_slug Db.u_category Db.u_source
       Db.u_is_installed Db.u_is_favorite AppStore.p_name AppStore.p_command
       AppStore.p_last_launched_at AppStore.p_launch_count].
  rewrite Hopen, Hrow. cbn zeta.
  rewrite bool_decide_eq_false_2.
  - f_equal.
    assert (Ht : tuis (Db.core db) !! tid = Some row.1).
    { apply map_lookup_zip_Some in Hrow. tauto. }
    destruct db as [[c m h n] d sq st], row as [[i nm cmd lla lc] dt].
    cbn in *. subst c. rewrite (insert_id m tid _ Ht).
    unfold toggled. cbn. destruct (bool_decide (Db.is_favorite dt = 1));
      reflexivity.
  - intros Hex. apply Exists_exists in Hex as ([k other] & Hin & Hne & Hs).
    apply elem_of_map_to_list in Hin. cbn in Hne, Hs.
    apply Hne. exact (Hslug k tid other row Hin Hrow Hs).
Qed.

Lemma Registry_toggle_well_formed ts tid db row :
  Db.well_formed db ->
  Db.table db !! tid = Some row ->
  Db.well_formed
    (Db.mkDatabase (Db.core db) (<[tid := toggled ts row]> (Db.details db))
       (Db.tui_seq db) (Db.settings db))
  /\ Db.table
       (Db.mkDatabase (Db.core db) (<[tid := toggled ts row]> (Db.details db))
          (Db.tui_seq db) (Db.settings db))
     = <[tid := (row.1, toggled ts row)]> (Db.table db).
Proof.
  intros Hwf Hrow.
  assert (Ht : tuis (Db.core db) !! tid = Some row.1).
  { apply map_lookup_zip_Some in Hrow. tauto. }
  assert (Htable :
            Db.table
              (Db.mkDatabase (Db.core db)
                 (<[tid := toggled ts row]> (Db.details db))
                 (Db.tui_seq db) (Db.settings db))
            = <[tid := (row.1, toggled ts row)]> (Db.table db)).
  { unfold Db.table. cbn [Db.core Db.details].
    rewrite <- (insert_id (tuis (Db.core db)) tid _ Ht) at 1.
    symmetry. apply map_insert_zip_with. }
  split; [|exact Htable].
  destruct Hwf as (Hdom & Hrows & Hslug & Hset).
  unfold Db.well_formed. rewrite Htable.
  cbn [Db.core Db.details Db.tui_seq Db.settings].
  split; [|split; [|split; [|exact Hset]]].
  - rewrite dom_insert_L, <- Hdom.
    apply elem_of_dom_2 in Ht. symmetry.
    apply subseteq_union_1_L, singleton_subseteq_l. exact Ht.
  - intros k r. destruct (decide (tid = k)) as [<-|Hne].
    + rewrite lookup_insert_eq. intros [= <-]. exact (Hrows tid row Hrow).
    + rewrite lookup_insert_ne by exact Hne. apply Hrows.
  - intros k1 k2 r1 r2.
    destruct (decide (tid = k1)) as [<-|Hne1],
             (decide (tid = k2)) as [<-|Hne2];
      rewrite ?lookup_insert_eq, ?lookup_insert_ne by assumption.
    + reflexivity.
    + intros [= <-] H2 Hs. symmetry.
      exact (Hslug k2 tid r2 row H2 Hrow (eq_sym Hs)).
    + intros H1 [= <-] Hs. exact (Hslug k1 tid r1 row H1 Hrow Hs).
    + apply Hslug.
Qed.

(** X20: on an open, well-formed database [toggleFavorite] of an id no
    row has returns false and changes nothing.  Otherwise it returns true;
    [getTUI] then shows the TUI with its favourite flag inverted and a new
    [updated_at] and everything else as before; every other TUI, the
    launch columns, the history and the settings are untouched; and a
    second toggle brings the flag back. *)
Theorem Registry_toggleFavorite_flips ts tid db :
  Db.well_formed db ->
  closed (Db.core db) = false ->
  match Db.table db !! tid with
  | None => Registry.toggleFavorite ts tid db = (Val false, db)
  | Some row =>
      let e := Db.rowToTUI row in
      exists db',
        Registry.toggleFavorite ts tid db = (Val true, db')
        /\ Db.well_formed db'
        /\ Db.getTUI tid db'
           = Val (Some (Db.mkEntry (Db.base e) (Db.e_slug e) (Db.e_category e)
                          (Db.e_source e) (Db.e_is_installed e)
                          (negb (Db.e_is_favorite e)) ts))
        /\ (forall k, k <> tid -> Db.getTUI k db' = Db.getTUI k db)
        /\ Db.core db' = Db.core db
        /\ Db.settings db' = Db.settings db
        /\ (forall ts2,
              exists db'',
                Registry.toggleFavorite ts2 tid db' = (Val true, db'')
                /\ Db.getTUI tid db''
                   = Val (Some (Db.mkEntry (Db.base e) (Db.e_slug e)
                                  (Db.e_category e) (Db.e_source e)
                                  (Db.e_is_installed e) (Db.e_is_favorite e)
                                  ts2)))
  end.
Proof.
  intros Hwf Hopen.
  destruct (Db.table db !! tid) as [row|] eqn:Hrow.
  - cbn zeta. eexists.
    split; [exact (Registry_toggle_run ts tid db row Hwf Hopen Hrow)|].
    destruct (Registry_toggle_well_formed ts tid db row Hwf Hrow)
      as [Hwf' Htable'].
    set (db' := Db.mkDatabase (Db.core db)
                  (<[tid := toggled ts row]> (Db.details db))
                  (Db.tui_seq db) (Db.settings db)) in *.
    assert (Hopen' : closed (Db.core db') = false) by exact Hopen.
    assert (Hrow' : Db.table db' !! tid = Some (row.1, toggled ts row)).
    { rewrite Htable'. apply lookup_insert_eq. }
    split; [exact Hwf'|]. split.
    { rewrite (Db_getTUI_open _ _ Hopen'), Hrow'. cbn. do 2 f_equal.
      unfold Db.rowToTUI. cbn. f_equal.
      destruct (bool_decide (Db.is_favorite row.2 = 1)); reflexivity. }
    split.
    { intros k Hne. rewrite (Db_getTUI_open _ _ Hopen'),
        (Db_getTUI_open _ _ Hopen), Htable'.
      rewrite lookup_insert_ne by congruence. reflexivity. }
    split; [reflexivity|]. split; [reflexivity|].
    intros ts2. eexists.
    split; [exact (Registry_toggle_run ts2 tid db' _ Hwf' Hopen' Hrow')|].
    destruct (Registry_toggle_well_formed ts2 tid db' _ Hwf' Hrow')
      as [_ Htable''].
    rewrite Db_getTUI_open by exact Hopen. rewrite Htable''.
    rewrite lookup_insert_eq. cbn. do 2 f_equal.
    unfold Db.rowToTUI. cbn. f_equal.
    destruct (bool_decide (Db.is_favorite row.2 = 1)); reflexivity.
  - unfold Registry.toggleFavorite.
    rewrite (Db_getTUI_open _ _ Hopen), Hrow. reflexivity.
Qed.

Lemma Registry_toggleFavorite_flips_btop :
  exists db',
    Registry.toggleFavorite 99 2 registry = (Val true, db')
    /\ Db.well_formed db'
    /\ Db.getTUI 2 db'
       = Val (Some (Db.mkEntry btop "btop" (Some "System") "github" false
                      false 99)).
Proof.
  pose proof (Registry_toggleFavorite_flips 99 2 registry
                registry_well_formed eq_refl) as Hflip.
  assert (Hrow : Db.table registry !! 2
                 = Some (btop, Db.mkDetails "btop" (Some "System") "github"
                                 0 1 20))
    by (vm_compute; reflexivity).
  rewrite Hrow in Hflip.
  destruct Hflip as (db' & Hrun & Hwf & Hget & _).
  exists db'. exact (conj Hrun (conj Hwf Hget)).
Defined.

(** ** Adding a TUI *)

Lemma head_filter_None {A} (P : A -> Prop) `{!forall x, Decision (P x)}
    (l : list A) :
  head (filter P l) = None <-> ~ Exists P l.
Proof.
  rewrite Exists_exists. split.
  - intros Hhead (x & Hx & HP).
    destruct (filter P l) as [|y rest] eqn:Hf; [|discriminate].
    exact (filter_nil_not_elem_of P l x Hf HP Hx).
  - intros Hnone. destruct (filter P l) as [|y rest] eqn:Hf; [reflexivity|].
    exfalso. apply Hnone. exists y.
    assert (Hy : y ∈ filter P l) by (rewrite Hf; left).
    apply list_elem_of_filter in Hy. tauto.
Qed.

Lemma head_filter_unique {A} (P : A -> Prop) `{!forall x, Decision (P x)}
    (l : list A) (x : A) :
  x ∈ l -> P x -> (forall y, y ∈ l -> P y -> y = x) ->
  head (filter P l) = Some x.
Proof.
  intros Hx HP Huniq.
  destruct (filter P l) as [|y rest] eqn:Hf.
  - exfalso. exact (filter_nil_not_elem_of P l x Hf HP Hx).
  - assert (Hy : y ∈ filter P l) by (rewrite Hf; left).
    apply list_elem_of_filter in Hy as [HPy Hy].
    cbn. f_equal. exact (Huniq y Hy HPy).
Qed.

Lemma Db_insert_well_formed ts tui db :
  Db.well_formed db ->
  closed (Db.core db) = false ->
  (forall k row, Db.table db !! k = Some row ->
                 Db.slug row.2 <> Db.n_slug tui) ->
  exists db',
    Db.addTUI ts tui db = (Val (Db.tui_seq db + 1), db')
    /\ Db.well_formed db'
    /\ Db.table db'
       = <[Db.tui_seq db + 1 :=
             (mkTUI (Some (Db.tui_seq db + 1)) (Db.n_name tui)
                (Db.n_command tui) None (Db.n_launch_count tui),
              Db.mkDetails (Db.n_slug tui)
                (string_or_absent (Db.n_category tui)) (Db.n_source tui)
                (if Db.n_is_installed tui then 1 else 0)
                (if Db.n_is_favorite tui then 1 else 0) ts)]> (Db.table db)
    /\ Db.table db !! (Db.tui_seq db + 1) = None
    /\ closed (Db.core db') = false
    /\ launch_history (Db.core db') = launch_history (Db.core db)
    /\ Db.settings db' = Db.settings db.
Proof.
  intros (Hdom & Hrows & Hslug & Hset) Hopen Hfree.
  assert (Hcount : default 0 (number_or_absent (Some (Db.n_launch_count tui)))
                   = Db.n_launch_count tui).
  { cbn. destruct (Z.eqb_spec (Db.n_launch_count tui) 0) as [->|_];
      reflexivity. }
  assert (Hfresh : Db.table db !! (Db.tui_seq db + 1) = None).
  { destruct (Db.table db !! (Db.tui_seq db + 1)) as [row|] eqn:Hrow;
      [|reflexivity].
    destruct (Hrows _ _ Hrow) as [Hle _]. lia. }
  unfold Db.addTUI. rewrite Hopen, bool_decide_eq_false_2.
  2:{ intros Hex. apply Exists_exists in Hex as (row & Hin & Hs).
      apply list_elem_of_fmap in Hin as ([k row'] & -> & Hin).
      apply elem_of_map_to_list in Hin. exact (Hfree k row' Hin Hs). }
  cbn zeta. rewrite Hcount. eexists. split; [reflexivity|].
  assert (Htable :
            forall t d,
              map_zip (<[Db.tui_seq db + 1 := t]> (tuis (Db.core db)))
                (<[Db.tui_seq db + 1 := d]> (Db.details db))
              = <[Db.tui_seq db + 1 := (t, d)]> (Db.table db)).
  { intros t d. symmetry. apply map_insert_zip_with. }
  unfold Db.well_formed, Db.table.
  cbn [Db.core Db.details Db.tui_seq Db.settings tuis closed launch_history].
  rewrite Htable.
  split; [|split; [reflexivity|split; [exact Hfresh|
             split; [reflexivity|split; reflexivity]]]].
  split; [rewrite !dom_insert_L, Hdom; reflexivity|].
  split; [|split; [|exact Hset]].
  - intros k r. destruct (decide (Db.tui_seq db + 1 = k)) as [<-|Hne].
    + rewrite lookup_insert_eq. intros [= <-]. split; [lia|reflexivity].
    + rewrite lookup_insert_ne by exact Hne. intros Hk.
      destruct (Hrows k r Hk). split; [lia|assumption].
  - intros k1 k2 r1 r2.
    destruct (decide (Db.tui_seq db + 1 = k1)) as [<-|Hne1],
             (decide (Db.tui_seq db + 1 = k2)) as [<-|Hne2];
      rewrite ?lookup_insert_eq, ?lookup_insert_ne by assumption.
    + reflexivity.
    + intros [= <-] H2 Hs. exfalso. apply (Hfree k2 r2 H2). symmetry. exact Hs.
    + intros H1 [= <-] Hs. exfalso. exact (Hfree k1 r1 H1 Hs).
    + apply Hslug.
Qed.

(** X21: on an open, well-formed database [add] throws and changes
    nothing when a row already has the slug.  Otherwise it returns the
    next id: [getTUI] of that id and [getTUIBySlug] of the slug both give
    the new TUI, shown with the flags it was added with, its launch count,
    no launch yet, and an empty category as none; every other TUI, the
    history and the settings are untouched; and the database stays well
    formed, so slugs stay unique. *)
Theorem Registry_add_refuses_taken_slug ts tui db :
  Db.well_formed db ->
  closed (Db.core db) = false ->
  match Registry.add ts tui db with
  | (Raise _, db') =>
      db' = db
      /\ exists k row,
          Db.table db !! k = Some row /\ Db.slug row.2 = Db.n_slug tui
  | (Val newid, db') =>
      let e := Db.mkEntry
                 (mkTUI (Some newid) (Db.n_name tui) (Db.n_command tui) None
                    (Db.n_launch_count tui))
                 (Db.n_slug tui) (string_or_absent (Db.n_category tui))
                 (Db.n_source tui) (Db.n_is_installed tui)
                 (Db.n_is_favorite tui) ts in
      (forall k row, Db.table db !! k = Some row ->
                     Db.slug row.2 <> Db.n_slug tui)
      /\ newid = Db.tui_seq db + 1
      /\ Db.well_formed db'
      /\ Db.getTUI newid db' = Val (Some e)
      /\ Db.getTUIBySlug (Db.n_slug tui) db' = Val (Some e)
      /\ (forall k, k <> newid -> Db.getTUI k db' = Db.getTUI k db)
      /\ launch_history (Db.core db') = launch_history (Db.core db)
      /\ Db.settings db' = Db.settings db
  end.
Proof.
  intros Hwf Hopen. unfold Registry.add, Db.getTUIBySlug. rewrite Hopen.
  destruct (head (filter (fun row : TUI * Db.Details =>
                            Db.slug row.2 = Db.n_slug tui)
                    (map_to_list (Db.table db)).*2)) as [found|] eqn:Hhead.
  - cbn. split; [reflexivity|].
    apply head_Some_elem_of, list_elem_of_filter in Hhead as [Hs Hin].
    apply list_elem_of_fmap in Hin as ([k row] & -> & Hin).
    apply elem_of_map_to_list in Hin. exists k, row. split; assumption.
  - cbn. apply head_filter_None in Hhead.
    assert (Hfree : forall k row, Db.table db !! k = Some row ->
                                  Db.slug row.2 <> Db.n_slug tui).
    { intros k row Hk Hs. apply Hhead, Exists_exists. exists row.
      split; [|exact Hs]. apply list_elem_of_fmap. exists (k, row).
      split; [reflexivity|]. apply elem_of_map_to_list. exact Hk. }
    destruct (Db_insert_well_formed ts tui db Hwf Hopen Hfree)
      as (db' & -> & Hwf' & Htable & Hfresh & Hopen' & Hhist & Hset).
    cbn zeta. split; [exact Hfree|]. split; [reflexivity|].
    split; [exact Hwf'|].
    set (t := mkTUI (Some (Db.tui_seq db + 1)) (Db.n_name tui)
                (Db.n_command tui) None (Db.n_launch_count tui)) in *.
    set (d := Db.mkDetails (Db.n_slug tui)
                (string_or_absent (Db.n_category tui)) (Db.n_source tui)
                (if Db.n_is_installed tui then 1 else 0)
                (if Db.n_is_favorite tui then 1 else 0) ts) in *.
    assert (Hentry : Db.rowToTUI (t, d)
                     = Db.mkEntry t (Db.n_slug tui)
                         (string_or_absent (Db.n_category tui))
                         (Db.n_source tui) (Db.n_is_installed tui)
                         (Db.n_is_favorite tui) ts).
    { unfold Db.rowToTUI. cbn.
      destruct (Db.n_is_installed tui), (Db.n_is_favorite tui); reflexivity. }
    split; [|split; [|split; [|split; [exact Hhist|exact Hset]]]].
    + rewrite (Db_getTUI_open _ _ Hopen'), Htable, lookup_insert_eq.
      cbn [fmap option_fmap option_map]. rewrite Hentry. reflexivity.
    + unfold Db.getTUIBySlug. rewrite Hopen'.
      rewrite (head_filter_unique _ _ (t, d)).
      * cbn [fmap option_fmap option_map]. rewrite Hentry. reflexivity.
      * apply list_elem_of_fmap. exists (Db.tui_seq db + 1, (t, d)).
        split; [reflexivity|].
        apply elem_of_map_to_list. rewrite Htable. apply lookup_insert_eq.
      * reflexivity.
      * intros row Hin Hs.
        apply list_elem_of_fmap in Hin as ([k row'] & -> & Hin).
        apply elem_of_map_to_list in Hin. rewrite Htable in Hin.
        destruct (decide (Db.tui_seq db + 1 = k)) as [<-|Hne].
        -- rewrite lookup_insert_eq in Hin. injection Hin as <-.
           reflexivity.
        -- rewrite lookup_insert_ne in Hin by exact Hne.
           exfalso. exact (Hfree k row' Hin Hs).
    + intros k Hne. rewrite (Db_getTUI_open _ _ Hopen'),
        (Db_getTUI_open _ _ Hopen), Htable.
      rewrite lookup_insert_ne by congruence. reflexivity.
Qed.

Lemma Registry_add_refuses_taken_slug_ncdu :
  exists db',
    Registry.add 99
      (Db.mkNewTUI "ncdu" "ncdu" "ncdu" (Some "") "manual" true false 0)
      registry
    = (Val 3, db')
    /\ Db.well_formed db'
    /\ Db.getTUIBySlug "ncdu" db'
       = Val (Some (Db.mkEntry (mkTUI (Some 3) "ncdu" "ncdu" None 0) "ncdu"
                      None "manual" true false 99)).
Proof.
  pose proof (Registry_add_refuses_taken_slug 99
                (Db.mkNewTUI "ncdu" "ncdu" "ncdu" (Some "") "manual" true
                   false 0)
                registry registry_well_formed eq_refl) as Hadd.
  destruct (Registry.add 99 _ registry) as [[newid|e] db'] eqn:Hrun.
  - destruct Hadd as (_ & -> & Hwf & _ & Hslug & _).
    exists db'. split; [reflexivity|]. split; [exact Hwf|exact Hslug].
  - apply (f_equal fst) in Hrun. vm_compute in Hrun. discriminate Hrun.
Defined.

(** ** The most launched *)

Lemma Registry_insert_Permutation {A} (compare : A -> A -> Z) x l :
  Registry.insert_sorted compare x l ≡ₚ x :: l.
Proof.
  induction l as [|y rest IH]; [reflexivity|]. cbn.
  destruct (compare x y <=? 0); [reflexivity|].
  rewrite IH. apply Permutation_swap.
Qed.

Lemma Registry_sort_Permutation {A} (compare : A -> A -> Z) l :
  Registry.sort compare l ≡ₚ l.
Proof.
  induction l as [|x rest IH]; [reflexivity|]. cbn.
  rewrite Registry_insert_Permutation, IH. reflexivity.
Qed.

Lemma Registry_insert_sorted x l :
  StronglySorted more_launched l ->
  StronglySorted more_launched
    (Registry.insert_sorted Registry.by_launch_count x l).
Proof.
  induction 1 as [|y rest Hrest IH Hall]; cbn.
  - repeat constructor.
  - unfold Registry.by_launch_count at 1.
    destruct (Z.leb_spec (launch_count (Db.base y) - launch_count (Db.base x))
                0) as [Hle|Hgt].
    + constructor; [constructor; assumption|].
      constructor; [unfold more_launched; lia|].
      eapply Forall_impl; [exact Hall|].
      intros z Hz. unfold more_launched in *. lia.
    + constructor; [exact IH|].
      rewrite Registry_insert_Permutation.
      constructor; [unfold more_launched; lia|exact Hall].
Qed.

Lemma Registry_sort_sorted l :
  StronglySorted more_launched (Registry.sort Registry.by_launch_count l).
Proof.
  induction l as [|x rest IH]; cbn; [constructor|].
  apply Registry_insert_sorted, IH.
Qed.

(** Entries launched equally often keep their order. *)
Lemma Registry_insert_stable c x l :
  filter (fun e => launch_count (Db.base e) = c)
    (Registry.insert_sorted Registry.by_launch_count x l)
  = filter (fun e => launch_count (Db.base e) = c) (x :: l).
Proof.
  induction l as [|y rest IH]; [reflexivity|]. cbn [Registry.insert_sorted].
  unfold Registry.by_launch_count at 1.
  destruct (Z.leb_spec (launch_count (Db.base y) - launch_count (Db.base x))
              0) as [Hle|Hgt]; [reflexivity|].
  rewrite filter_cons, IH, !filter_cons.
  destruct (decide (launch_count (Db.base y) = c)) as [Hy|Hy];
    destruct (decide (launch_count (Db.base x) = c)) as [Hx|Hx];
    try reflexivity.
  lia.
Qed.

Lemma Registry_sort_stable c l :
  filter (fun e => launch_count (Db.base e) = c)
    (Registry.sort Registry.by_launch_count l)
  = filter (fun e => launch_count (Db.base e) = c) l.
Proof.
  induction l as [|x rest IH]; [reflexivity|]. cbn [Registry.sort foldr].
  rewrite Registry_insert_stable, !filter_cons.
  fold (Registry.sort Registry.by_launch_count rest). rewrite IH.
  reflexivity.
Qed.

(** X22: [getMostLaunched] ranks the installed TUIs by launch count,
    highest first, TUIs launched equally often staying in the order of
    their names, and returns the head of that ranking: the first [limit]
    entries, or, for a negative [limit], all but the last [-limit].  No
    entry left out has been launched more often than one returned. *)
Theorem Registry_getMostLaunched_ranks limit db :
  closed (Db.core db) = false ->
  exists installed ranked result,
    Registry.getInstalled db = Val installed
    /\ Registry.getMostLaunched limit db = Val result
    /\ ranked ≡ₚ installed
    /\ StronglySorted more_launched ranked
    /\ (forall c,
          filter (fun e => launch_count (Db.base e) = c) ranked
          = filter (fun e => launch_count (Db.base e) = c) installed)
    /\ (exists rest,
          ranked = result ++ rest
          /\ length result
             = let n := default 10 limit in
               if n <? 0 then (length installed - Z.to_nat (- n))%nat
               else Nat.min (Z.to_nat n) (length installed))
    /\ (forall e e',
          e ∈ installed -> e ∉ result -> e' ∈ result ->
          launch_count (Db.base e) ≤ launch_count (Db.base e')).
Proof.
  intros Hopen. unfold Registry.getMostLaunched, Registry.getInstalled.
  rewrite (Db_getAllTUIs_open _ _ Hopen).
  set (installed := Db.rowToTUI
                      <$> Db.select_rows (Db.mkFilters (Some true) None None)
                            db).
  set (ranked := Registry.sort Registry.by_launch_count installed).
  exists installed, ranked,
    (Registry.slice_to (default 10 limit) ranked).
  pose proof (Registry_sort_Permutation Registry.by_launch_count installed)
    as Hperm.
  pose proof (Registry_sort_sorted installed) as Hsorted.
  fold ranked in Hperm, Hsorted.
  split; [reflexivity|]. split; [reflexivity|]. split; [exact Hperm|].
  split; [exact Hsorted|]. split; [intros c; apply Registry_sort_stable|].
  assert (Hsplit : exists rest,
            ranked = Registry.slice_to (default 10 limit) ranked ++ rest
            /\ length (Registry.slice_to (default 10 limit) ranked)
               = let n := default 10 limit in
                 if n <? 0 then (length installed - Z.to_nat (- n))%nat
                 else Nat.min (Z.to_nat n) (length installed)).
  { unfold Registry.slice_to. cbn zeta.
    exists (drop (Z.to_nat
                    (if default 10 limit <? 0
                     then Z.max (Z.of_nat (length ranked) + default 10 limit) 0
                     else Z.min (default 10 limit) (Z.of_nat (length ranked))))
              ranked).
    rewrite take_drop, length_take, (Permutation_length Hperm).
    split; [reflexivity|].
    destruct (Z.ltb_spec (default 10 limit) 0); lia. }
  split; [exact Hsplit|].
  destruct Hsplit as (rest & Hsplit & _).
  intros e e' He Hnot He'.
  rewrite <- Hperm, Hsplit in He. apply elem_of_app in He as [He|He];
    [contradiction|].
  rewrite Hsplit in Hsorted.
  exact (StronglySorted_app_1_elem_of _ _ _ _ _ Hsorted He' He).
Qed.

Lemma Registry_getMostLaunched_ranks_shelf :
  exists installed ranked result,
    Registry.getInstalled shelf = Val installed
    /\ Registry.getMostLaunched (Some 2) shelf = Val result
    /\ ranked ≡ₚ installed
    /\ StronglySorted more_launched ranked
    /\ (forall c,
          filter (fun e => launch_count (Db.base e) = c) ranked
          = filter (fun e => launch_count (Db.base e) = c) installed)
    /\ (exists rest,
          ranked = result ++ rest
          /\ length result = Nat.min 2 (length installed))
    /\ (forall e e',
          e ∈ installed -> e ∉ result -> e' ∈ result ->
          launch_count (Db.base e) ≤ launch_count (Db.base e')).
Proof.
  exact (Registry_getMostLaunched_ranks (Some 2) shelf eq_refl).
Defined.

(** On the shelf: lazygit, launched most, is not installed and is left
    out; htop and ncdu are launched equally often and htop comes first, by
    name. *)
Example Registry_getMostLaunched_shelf :
  Registry.getMostLaunched (Some 2) shelf
  = Val [Db.mkEntry (mkTUI (Some 2) "btop" "btop" (Some 40) 9) "btop"
           (Some "System") "github" true true 20;
         Db.mkEntry (mkTUI (Some 3) "htop" "htop" (Some 30) 5) "htop"
           (Some "System") "manual" true false 30]
  /\ Registry.getMostLaunched (Some (-1)) shelf
     = Registry.getMostLaunched (Some 2) shelf.
Proof. vm_compute. split; reflexivity. Qed.

(** ** Closing the database *)

Lemma close_addLaunchHistory ts history s :
  addLaunchHistory ts history (close s) = (Raise closed_database, close s).
Proof. reflexivity. Qed.

(** X23: once the database is closed, every operation of the store throws
    and changes nothing.  A launch still settles exactly as it would have
    with the database open, and leaves the closed store as it is: nothing
    is recorded. *)
Theorem close_stops_recording s :
  (forall ts history,
      addLaunchHistory ts history (close s) = (Raise closed_database, close s))
  /\ (forall tuiId limit,
        getLaunchHistory tuiId limit (close s) = Raise closed_database)
  /\ (forall limit,
        getRecentlyLaunchedTUIs limit (close s) = Raise closed_database)
  /\ (forall tid, deleteTUI tid (close s) = (Raise closed_database, close s))
  /\ (forall host tui options w,
        store w = s ->
        exists outcome w1 w2,
          launch host tui options w = (Val outcome, w1)
          /\ launch host tui options (set_store (close s) w)
             = (Val outcome, w2)
          /\ store w2 = close s).
Proof.
  split; [reflexivity|]. split; [reflexivity|]. split; [reflexivity|].
  split; [reflexivity|].
  intros host tui options w Hs.
  destruct (launch_outcome host tui options w) as (w1 & Hrun1).
  destruct (launch_outcome host tui options (set_store (close s) w))
    as (w2 & Hrun2).
  exists (outcome host tui options (clock w)), w1, w2.
  split; [exact Hrun1|]. split; [exact Hrun2|].
  pose proof (launch_invariant (fun x => x = close s)) as Hinv.
  specialize (Hinv (fun ts history x Hx =>
                      eq_trans (f_equal (fun y => (addLaunchHistory ts history y).2) Hx)
                        eq_refl)).
  specialize (Hinv host tui options (set_store (close s) w) eq_refl).
  rewrite Hrun2 in Hinv. exact Hinv.
Qed.

(** ** The launcher's own queries *)

(** X24: after a detached launch that was recorded (the conditions of
    [launch_detached_records]), with a timestamp later than those of the
    TUI's earlier history rows, [getHistory] of the launcher returns that
    launch first, and [getRecentlyLaunched] without a limit lists the TUI
    with its new launch count. *)
Theorem launch_then_getHistory host tui options w term events t row :
  default false (waitForExit options) = false ->
  chosen_terminal host options = Some term ->
  os_spawn host (spawn_call host tui options term) = Spawned events ->
  id tui = Some t ->
  closed (store w) = false ->
  tuis (store w) !! t = Some row ->
  Forall (fun r => lh_tui_id r = t ->
                   lh_launched_at r < current_timestamp host (S (S (clock w))))
    (launch_history (store w)) ->
  let w' := (launch host tui options w).2 in
  let ts := current_timestamp host (S (S (clock w))) in
  (exists rest,
      getHistory t None w'
      = (Val (mkLaunchHistory (history_seq (store w) + 1) t ts None
                (number_or_absent
                   (Some (now host (S (clock w)) - now host (clock w))))
                None :: rest), w'))
  /\ (exists recent,
        getRecentlyLaunched (Some (-1)) w' = (Val recent, w')
        /\ mkTUI (id row) (name row) (command row) (Some ts)
             (launch_count row + 1) ∈ recent).
Proof.
  intros Hwait Hterm Hspawn Hid Hopen Hrow Hold w' ts. subst w' ts.
  rewrite (launch_detached_run host tui options w term events
             Hwait Hterm Hspawn).
  cbn [snd]. unfold getHistory, getRecentlyLaunched.
  cbn [store set_clock]. rewrite recorded_store, Hid.
  destruct (after_detect_frame host options
              (set_clock (S (clock w)) w)) as (_ & Hst & _).
  cbn [clock store log_spawn set_clock] in *. rewrite Hst.
  cbn [exitCode duration error default].
  split.
  - destruct (getLaunchHistory_head_after_add
                (current_timestamp host (S (S (clock w)))) t row None
                (Some (now host (S (clock w)) - now host (clock w))) None
                (store w) 10 Hopen Hrow Hold) as (rest & Hhead);
      [discriminate|].
    exists rest. rewrite Hhead. reflexivity.
  - rewrite (addLaunchHistory_run _ t row _ _ _ _ Hopen Hrow). cbn [snd].
    unfold getRecentlyLaunchedTUIs. cbn [closed tuis].
    eexists. split; [reflexivity|].
    match goal with |- _ ∈ sql_limit _ (merge_sort _ ?sel) =>
      destruct (sorted_limit_spec launched_later (-1) sel)
        as (_ & _ & _ & _ & Hall) end.
    apply Hall; [lia|].
    apply list_elem_of_filter. split; [discriminate|].
    apply list_elem_of_fmap.
    exists (t, mkTUI (id row) (name row) (command row)
                 (Some (current_timestamp host (S (S (clock w)))))
                 (launch_count row + 1)).
    split; [reflexivity|]. apply elem_of_map_to_list. cbn [tuis].
    rewrite lookup_alter_eq, Hrow. reflexivity.
Qed.

Lemma launch_then_getHistory_seasoned :
  (exists rest,
      getHistory 1 None
        (launch (kitty_host []) veteran detached seasoned_world).2
      = (Val (mkLaunchHistory 4 1 52 None (Some 7) None :: rest),
         (launch (kitty_host []) veteran detached seasoned_world).2))
  /\ (exists recent,
        getRecentlyLaunched (Some (-1))
          (launch (kitty_host []) veteran detached seasoned_world).2
        = (Val recent,
           (launch (kitty_host []) veteran detached seasoned_world).2)
        /\ mkTUI (Some 1) "htop" "htop" (Some 52) 3 ∈ recent).
Proof.
  apply (launch_then_getHistory (kitty_host []) veteran detached
           seasoned_world "kitty" [] 1 veteran); try reflexivity.
  repeat constructor; cbn; intros; lia.
Defined.

Example launch_then_getHistory_on_seasoned :
  (getHistory 1 None
     (launch (kitty_host []) veteran detached seasoned_world).2).1
  = Val [mkLaunchHistory 4 1 52 None (Some 7) None;
         mkLaunchHistory 3 1 30 None None (Some "spawn EPERM");
         mkLaunchHistory 1 1 20 None (Some 5) None]
  /\ (getRecentlyLaunched (Some (-1))
        (launch (kitty_host []) veteran detached seasoned_world).2).1
     = Val [mkTUI (Some 1) "htop" "htop" (Some 52) 3;
            mkTUI (Some 2) "btop" "btop" (Some 40) 1].
Proof. vm_compute. split; reflexivity. Qed.
